(** * datanorm_writer: fields, rows, charset encoding and text chunking

    A shallow embedding of [datanorm_writer/base.py] and of the row
    definitions of [datanorm_writer/rows.py], with the properties the
    specification states about them.

    Conventions of the embedding:
    - a Python [str] is a list of Unicode code points ([pystr]), so that
      a character such as U+00FC is one element, as it is for [len] and
      for iteration in Python;
    - a Python [bytes] is a list of [Byte.byte];
    - identifiers (attribute names, keyword names) are Rocq strings;
    - [raise] is the [Raise] constructor of [result]; the exception
      class is kept, the message is kept for [ValueError] (the
      [ValidationError] of the specification);
    - the raw values given to fields are [None], strings, integers and
      dates; lengths and ordinals are natural numbers;
    - field objects are mutable and shared: they live in a heap, and
      the class-wide creation counter is part of the interpreter state;
    - [logger.error] is modelled by the list of records logged;
    - a loop that may not end ([chunk_text]) takes a number of
      iterations it may use, and says whether it finished;
    - [unicodedata.normalize("NFKC", _)] is a parameter of the functions
      that call it: the Unicode tables are not part of the repository. *)

From Stdlib Require Import ZArith NArith Strings.String Strings.Ascii Strings.Byte.
From Stdlib Require Import Numbers.DecimalN Lia.
From stdpp Require Import base option list gmap strings.

Local Open Scope Z_scope.

(** ** Text, bytes and exceptions *)

Abbreviation pychar := N.
Abbreviation pystr := (list N).
Abbreviation bytes := (list byte).

#[global] Instance byte_eq_decision : EqDecision byte := Byte.byte_eq_dec.

(** The code points of an ASCII literal. *)
Fixpoint u (s : string) : pystr :=
  match s with
  | EmptyString => []
  | String c s' => N_of_ascii c :: u s'
  end.

(** [len(s)] as a Python integer. *)
Definition len {A} (s : list A) : Z := Z.of_nat (length s).

Inductive PyExc :=
  | ValueError (msg : string)
  | TypeError
  | AttributeError
  | KeyError
  | AssertionError.

Inductive result (A : Type) :=
  | Ok (a : A)
  | Raise (e : PyExc).
Arguments Ok {A} a.
Arguments Raise {A} e.

#[global] Instance result_ret : MRet result := fun A a => Ok a.
#[global] Instance result_bind : MBind result := fun A B f m =>
  match m with
  | Ok a => f a
  | Raise e => Raise e
  end.

(** ** Raw values

    The values a caller binds to a field: [None], a [str], an [int] or
    a [datetime.date]. *)

Inductive PyVal :=
  | VNone
  | VStr (s : pystr)
  | VInt (z : Z)
  | VDate (year month day : Z).

#[global] Instance PyVal_eq_decision : EqDecision PyVal.
Proof. solve_decision. Defined.

(** Truth value of a raw value ([bool(v)]): [None], [""] and [0] are
    false, a date is always true. *)
Definition truthy (v : PyVal) : bool :=
  match v with
  | VNone => false
  | VStr s => negb (bool_decide (s = []))
  | VInt z => negb (z =? 0)
  | VDate _ _ _ => true
  end.

(** An optional integer attribute used as a condition
    ([if self.length]): [None] and [0] are false. *)
Definition is_set (o : option nat) : bool :=
  match o with
  | Some (S _) => true
  | _ => false
  end.

(** *** Number formatting *)

Fixpoint uint_codes (d : Decimal.uint) : pystr :=
  match d with
  | Decimal.Nil => []
  | Decimal.D0 d => 48%N :: uint_codes d
  | Decimal.D1 d => 49%N :: uint_codes d
  | Decimal.D2 d => 50%N :: uint_codes d
  | Decimal.D3 d => 51%N :: uint_codes d
  | Decimal.D4 d => 52%N :: uint_codes d
  | Decimal.D5 d => 53%N :: uint_codes d
  | Decimal.D6 d => 54%N :: uint_codes d
  | Decimal.D7 d => 55%N :: uint_codes d
  | Decimal.D8 d => 56%N :: uint_codes d
  | Decimal.D9 d => 57%N :: uint_codes d
  end.

(** The decimal digits of a natural number. *)
Definition digits (n : N) : pystr := uint_codes (N.to_uint n).

(** ["%d" % z] *)
Definition fmt_d (z : Z) : pystr :=
  if z <? 0 then 45%N :: digits (Z.abs_N z) else digits (Z.abs_N z).

(** ["%0*d" % (width, z)]: the sign first, then zeros up to [width]
    characters in all; never truncates. *)
Definition fmt_0d (width : nat) (z : Z) : pystr :=
  let ds := digits (Z.abs_N z) in
  if z <? 0
  then 45%N :: replicate (width - 1 - length ds) 48%N ++ ds
  else replicate (width - length ds) 48%N ++ ds.

(** [str(v)] *)
Definition py_str (v : PyVal) : pystr :=
  match v with
  | VNone => u "None"
  | VStr s => s
  | VInt z => fmt_d z
  | VDate y m d => fmt_0d 4 y ++ u "-" ++ fmt_0d 2 m ++ u "-" ++ fmt_0d 2 d
  end.

(** [str(value or "")] *)
Definition str_or_empty (v : PyVal) : pystr :=
  if truthy v then py_str v else [].

(** [s.replace(old, new)] for one-character [old] and [new]. *)
Definition replace_char (old new : pychar) (s : pystr) : pystr :=
  (fun c => if decide (c = old) then new else c) <$> s.

(** [sub in s] on strings: [sub] occurs in [s]. *)
Fixpoint str_contains (sub s : pystr) : bool :=
  bool_decide (sub `prefix_of` s) ||
  match s with
  | [] => false
  | _ :: s' => str_contains sub s'
  end.

(** The collections given as [values=]: a tuple or list, or a string
    (whose members are its substrings). *)
Inductive PyColl :=
  | CSeq (items : list PyVal)
  | CStr (s : pystr).

Definition coll_truthy (c : PyColl) : bool :=
  match c with
  | CSeq items => negb (bool_decide (items = []))
  | CStr s => negb (bool_decide (s = []))
  end.

(** [v in c]; a non-string looked up in a string is a [TypeError]. *)
Definition py_in (v : PyVal) (c : PyColl) : result bool :=
  match c with
  | CSeq items => Ok (bool_decide (v ∈ items))
  | CStr s =>
      match v with
      | VStr sub => Ok (str_contains sub s)
      | _ => Raise TypeError
      end
  end.

(** ** Field descriptors ([FieldBase] and its subclasses) *)

(** The class of a field object; a [StaticField] carries its constant. *)
Inductive FieldClass :=
  | StringField
  | IntegerField
  | ShortDateField
  | DateField
  | CurrencyField
  | StaticField (static_value : pystr).

(** The keyword arguments of [FieldBase.__init__], with its defaults. *)
Module Kw.
Record t := mk {
  max_length : option nat;
  length : option nat;
  name : option string;
  index : option nat;
  blank : bool;
  required : bool
}.
Definition default : t := mk None None None None false false.
Definition with_length (n : nat) (kw : t) : t :=
  mk (max_length kw) (Some n) (name kw) (index kw) (blank kw) (required kw).
Definition with_max_length (n : nat) (kw : t) : t :=
  mk (Some n) (length kw) (name kw) (index kw) (blank kw) (required kw).
Definition with_name (s : string) (kw : t) : t :=
  mk (max_length kw) (length kw) (Some s) (index kw) (blank kw) (required kw).
Definition with_required (b : bool) (kw : t) : t :=
  mk (max_length kw) (length kw) (name kw) (index kw) (blank kw) b.
End Kw.

(** The attributes of a field object. *)
Module Field.
Record t := mk {
  cls : FieldClass;
  values : option PyColl;
  creation_counter : nat;
  length : option nat;
  max_length : option nat;
  name : option string;
  required : bool;
  index : option nat;
  blank : bool;
  field_name : option string
}.
Definition set_name (s : option string) (f : t) : t :=
  mk (cls f) (values f) (creation_counter f) (length f) (max_length f)
     s (required f) (index f) (blank f) (field_name f).
Definition set_index (i : option nat) (f : t) : t :=
  mk (cls f) (values f) (creation_counter f) (length f) (max_length f)
     (name f) (required f) i (blank f) (field_name f).
Definition set_field_name (s : option string) (f : t) : t :=
  mk (cls f) (values f) (creation_counter f) (length f) (max_length f)
     (name f) (required f) (index f) (blank f) s.
End Field.

(** [FieldBase.__init__]: rejects conflicting lengths, then takes the
    next value of the class-wide [FieldBase.creation_counter] (threaded
    here as [counter]) and stores the arguments.  [cls] and [values] are
    what the subclass constructor has set on the object. *)
Definition FieldBase_init (cls : FieldClass) (values : option PyColl)
    (kw : Kw.t) (counter : nat) : result (Field.t * nat) :=
  if is_set (Kw.length kw) && is_set (Kw.max_length kw)
     && negb (bool_decide (Kw.length kw = Kw.max_length kw))
  then Raise (ValueError "max_length != length")
  else Ok (Field.mk cls values counter (Kw.length kw) (Kw.max_length kw)
             (Kw.name kw) (Kw.required kw) (Kw.index kw) (Kw.blank kw) None,
           S counter).

(** [StringField.__init__(values=None, **kwargs)]: sets
    [self.values = None], whatever [values] is. *)
Definition StringField_init (values : option PyColl) (kw : Kw.t) (counter : nat)
    : result (Field.t * nat) :=
  FieldBase_init StringField None kw counter.

(** [IntegerField.__init__(values=None, **kwargs)]: sets
    [self.values = values]. *)
Definition IntegerField_init (values : option PyColl) (kw : Kw.t) (counter : nat)
    : result (Field.t * nat) :=
  FieldBase_init IntegerField values kw counter.

(** The subclasses of [StringField] call [StringField.__init__] with
    [kwargs["length"]] overwritten; [values], if given among the
    keywords, is dropped there as well. *)
Definition ShortDateField_init (kw : Kw.t) (counter : nat) : result (Field.t * nat) :=
  FieldBase_init ShortDateField None (Kw.with_length 6 kw) counter.

Definition DateField_init (kw : Kw.t) (counter : nat) : result (Field.t * nat) :=
  FieldBase_init DateField None (Kw.with_length 8 kw) counter.

Definition CurrencyField_init (kw : Kw.t) (counter : nat) : result (Field.t * nat) :=
  FieldBase_init CurrencyField None (Kw.with_length 3 kw) counter.

Definition StaticField_init (static_value : pystr) (kw : Kw.t) (counter : nat)
    : result (Field.t * nat) :=
  FieldBase_init (StaticField static_value) None
    (Kw.with_length (List.length static_value) kw) counter.

(** Construction by class: [cls(values=values, **kw)]. *)
Definition construct (cls : FieldClass) (values : option PyColl) (kw : Kw.t)
    (counter : nat) : result (Field.t * nat) :=
  match cls with
  | StringField => StringField_init values kw counter
  | IntegerField => IntegerField_init values kw counter
  | ShortDateField => ShortDateField_init kw counter
  | DateField => DateField_init kw counter
  | CurrencyField => CurrencyField_init kw counter
  | StaticField sv => StaticField_init sv kw counter
  end.

(** [self.values and value not in self.values] *)
Definition not_permitted (values : option PyColl) (v : PyVal) : result bool :=
  match values with
  | None => Ok false
  | Some c => if coll_truthy c then b ← py_in v c; Ok (negb b) else Ok false
  end.

(** [StringField.process] *)
Definition StringField_process (f : Field.t) (value : PyVal) : result pystr :=
  if negb (truthy value) && Field.blank f then Ok []
  else if negb (truthy value) && Field.required f
  then Raise (ValueError "Field must not be empty")
  else
    bad ← not_permitted (Field.values f) value;
    if (bad : bool) then Raise (ValueError "Value not in values")
    else if bool_decide (value = VNone) && is_set (Field.length f)
    then Raise (ValueError "Field with fixed length can't be None")
    else
      let value := str_or_empty value in
      if is_set (Field.length f)
         && negb (bool_decide (Some (List.length value) = Field.length f))
      then Raise (ValueError "Fixed length string needs value of matching length")
      else if is_set (Field.max_length f)
              && bool_decide (default 0%nat (Field.max_length f) < List.length value)%nat
      then Raise (ValueError "Value longer than max_length")
      else Ok (replace_char 10%N 32%N value).

(** [IntegerField.process].  ["%0*d"] and ["%d"] raise [TypeError] on
    anything but a number; the first is turned into a [ValueError], the
    second is not caught.  Comparing a length with a [max_length] of
    [None] is a [TypeError] too. *)
Definition IntegerField_process (f : Field.t) (value : PyVal) : result pystr :=
  if Field.blank f && bool_decide (value = VNone) then Ok []
  else if bool_decide (value = VNone) && is_set (Field.length f)
  then Raise (ValueError "Field with fixed length can't be None")
  else
    bad ← not_permitted (Field.values f) value;
    if (bad : bool) then Raise (ValueError "Value not allowed")
    else if is_set (Field.length f)
    then match value with
         | VInt z => Ok (fmt_0d (default 0%nat (Field.length f)) z)
         | _ => Raise (ValueError "Value can't be converted")
         end
    else match value with
         | VNone => Ok []
         | VInt z =>
             let as_bytes := fmt_d z in
             match Field.max_length f with
             | None => Raise TypeError
             | Some m =>
                 if bool_decide (m < List.length as_bytes)%nat
                 then Raise (ValueError "Number too big for max_length")
                 else Ok as_bytes
             end
         | _ => Raise TypeError
         end.

(** [value.strftime("%d%m%y")] on a date. *)
Definition strftime_dmy (year month day : Z) : pystr :=
  fmt_0d 2 day ++ fmt_0d 2 month ++ fmt_0d 2 (year mod 100).

(** [ShortDateField.process]; none of the raw values has a [date]
    attribute, and only a date has [strftime]. *)
Definition ShortDateField_process (f : Field.t) (value : PyVal) : result pystr :=
  if negb (truthy value) && Field.blank f then Ok []
  else match value with
       | VNone => Raise (ValueError "None is not a valid date")
       | VDate y m d => StringField_process f (VStr (strftime_dmy y m d))
       | _ => Raise AttributeError
       end.

(** [DateField.process] *)
Definition DateField_process (f : Field.t) (value : PyVal) : result pystr :=
  if negb (truthy value) && Field.blank f then Ok []
  else match value with
       | VNone => Raise (ValueError "None is not a valid date")
       | VDate y m d =>
           StringField_process f (VStr (fmt_0d 4 y ++ fmt_0d 2 m ++ fmt_0d 2 d))
       | _ => Raise AttributeError
       end.

(** [StaticField.process] *)
Definition StaticField_process (static_value : pystr) (value : PyVal) : result pystr :=
  if negb (bool_decide (value = VNone)) && negb (bool_decide (value = VStr static_value))
  then Raise (ValueError "invalid value")
  else Ok static_value.

(** [field.process(value)]: the method of the object's class;
    [CurrencyField] inherits [StringField.process]. *)
Definition process (f : Field.t) (value : PyVal) : result pystr :=
  match Field.cls f with
  | StringField | CurrencyField => StringField_process f value
  | IntegerField => IntegerField_process f value
  | ShortDateField => ShortDateField_process f value
  | DateField => DateField_process f value
  | StaticField sv => StaticField_process sv value
  end.

(** [field.feldnummer] *)
Definition feldnummer (f : Field.t) : result nat :=
  match Field.index f with
  | Some i => Ok (i + 1)%nat
  | None => Raise TypeError
  end.

(** ** The charset table *)

(** A charset is a [Mapping[str, bytes]].  The encoder looks up one
    character at a time, so only keys of length one can be found: the
    table is keyed by code point. *)
Abbreviation charset_t := (gmap N bytes).

(** [dict(pairs)] and [d.update(pairs)]: a later pair replaces an
    earlier one with the same key. *)
Definition dict_update (d : charset_t) (pairs : list (N * bytes)) : charset_t :=
  foldl (fun m kv => <[kv.1 := kv.2]> m) d pairs.

Definition valid_ascii_characters : pystr :=
  [9%N] ++ u " !" ++ [34%N] ++ u "#$%&'()*+,-./0123456789:<=>?@^_"
  ++ u "ABCDEFGHIJKLMNOPQRSTUVWXYZ"
  ++ u "abcdefghijklmnopqrstuvwxyz[]".

(** [x.encode("ascii")] for a one-character string; raises outside
    ASCII. *)
Definition encode_ascii (c : pychar) : option bytes :=
  if (c <? 128)%N then b ← Byte.of_N c; Some [b] else None.

Definition custom_characters : list (N * bytes) :=
  [ (252%N, [x81]);   (* u with diaeresis *)
    (246%N, [x94]);   (* o with diaeresis *)
    (228%N, [x84]);   (* a with diaeresis *)
    (220%N, [x9a]);   (* U with diaeresis *)
    (196%N, [x8e]);   (* A with diaeresis *)
    (214%N, [x99]);   (* O with diaeresis *)
    (223%N, [xe1]) ]. (* sharp s *)

(** The pairs [(x, x.encode("ascii"))]; [omap] would skip a character
    whose encoding raises, and [ascii_pairs_complete] shows there is
    none. *)
Definition ascii_pairs : list (N * bytes) :=
  omap (fun x => bs ← encode_ascii x; Some (x, bs)) valid_ascii_characters.

Definition charset_translations : charset_t :=
  dict_update (dict_update ∅ ascii_pairs) custom_characters.

(** ** The charset encoder *)

(** [sep.join(parts)] on bytes. *)
Fixpoint bytes_join (sep : bytes) (parts : list bytes) : bytes :=
  match parts with
  | [] => []
  | [p] => p
  | p :: rest => p ++ sep ++ bytes_join sep rest
  end.

(** What [logger.error] receives: the set of characters missing from
    the table, and the field name when one was given. *)
Record LogRecord := {
  invalid_characters : gset N;
  translating_field : option string
}.

Section Normalize.

(** [unicodedata.normalize("NFKC", _)] *)
Variable nfkc : pystr → pystr.

(** [normalize_and_encode(charset, value, field_name)]: the bytes
    returned and the records logged. *)
Definition normalize_and_encode (charset : charset_t) (value : pystr)
    (field_name : option string) : bytes * list LogRecord :=
  let value := nfkc value in
  let invalid : gset N := list_to_set value ∖ dom charset in
  let logged :=
    if bool_decide (invalid = ∅) then []
    else [ {| invalid_characters := invalid;
              translating_field :=
                match field_name with
                | Some EmptyString => None
                | other => other
                end |} ] in
  (mjoin (map (fun x => default [] (charset !! x)) value), logged).

(** ** Field objects, class bodies and the schema registrar *)

(** Field objects are shared and mutated by the registrar, so they live
    in a heap and are named by location.  The interpreter state also
    holds [FieldBase.creation_counter]. *)
Definition loc := nat.

Record World := {
  creation_counter : nat;
  heap : list Field.t
}.

Definition world0 : World := {| creation_counter := 0; heap := [] |}.

Definition Py (A : Type) : Type := World → result (A * World).

#[global] Instance Py_ret : MRet Py := fun A a w => Ok (a, w).
#[global] Instance Py_bind : MBind Py := fun A B f m w =>
  match m w with
  | Ok (a, w') => f a w'
  | Raise e => Raise e
  end.

(** A constructor call: the new object is put in the heap. *)
Definition new (init : nat → result (Field.t * nat)) : Py loc := fun w =>
  match init (creation_counter w) with
  | Ok (f, c) =>
      Ok (List.length (heap w), {| creation_counter := c; heap := heap w ++ [f] |})
  | Raise e => Raise e
  end.

(** An attribute of a class body: a field object, or anything else. *)
Inductive attr :=
  | AField (l : loc)
  | AOther.

(** [sorted(l, key=key)]: stable. *)
Fixpoint insert_by {A} (key : A → nat) (x : A) (l : list A) : list A :=
  match l with
  | [] => [x]
  | y :: l' =>
      if bool_decide (key x ≤ key y)%nat then x :: y :: l'
      else y :: insert_by key x l'
  end.

Definition sorted {A} (key : A → nat) (l : list A) : list A :=
  foldr (insert_by key) [] l.

(** [s.replace("_", " ").capitalize()] on an identifier made of ASCII
    characters: [capitalize] puts the first character in upper case and
    the others in lower case.  Python changes the case of letters
    outside ASCII as well, which is not modelled: what is proved of
    default names is proved for ASCII identifiers ([ascii_name]). *)
Definition ascii_upper (c : ascii) : ascii :=
  let n := nat_of_ascii c in
  if ((97 <=? n) && (n <=? 122))%nat then ascii_of_nat (n - 32) else c.

Definition ascii_lower (c : ascii) : ascii :=
  let n := nat_of_ascii c in
  if ((65 <=? n) && (n <=? 90))%nat then ascii_of_nat (n + 32) else c.

Fixpoint string_map (f : ascii → ascii) (s : string) : string :=
  match s with
  | EmptyString => EmptyString
  | String c s' => String (f c) (string_map f s')
  end.

Definition capitalize (s : string) : string :=
  match s with
  | EmptyString => EmptyString
  | String c s' => String (ascii_upper c) (string_map ascii_lower s')
  end.

Definition default_name (field_name : string) : string :=
  capitalize (string_map (fun c => if Ascii.eqb c "_" then " "%char else c) field_name).

(** The body of the loop of [get_declared_fields], on the field object
    at [l]: the index is assigned in the branch that assigns the default
    name. *)
Definition register_field (index : nat) (field_name : string) (l : loc)
    (h : list Field.t) : list Field.t :=
  match h !! l with
  | None => h
  | Some field =>
      let field :=
        match Field.name field with
        | None =>
            Field.set_index (Some index)
              (Field.set_name (Some (default_name field_name)) field)
        | Some _ => field
        end in
      <[l := Field.set_field_name (Some field_name) field]> h
  end.

Fixpoint register_fields (index : nat) (fields : list (string * loc))
    (h : list Field.t) : list Field.t :=
  match fields with
  | [] => h
  | (field_name, l) :: rest =>
      register_fields (S index) rest (register_field index field_name l h)
  end.

Definition counter_of (h : list Field.t) (x : string * loc) : nat :=
  default 0%nat (Field.creation_counter <$> h !! x.2).

(** The attributes that are field objects, in the order of the class
    body (the list comprehension of [get_declared_fields]). *)
Definition field_attrs (attrs : list (string * attr)) : list (string * loc) :=
  omap (fun '(field_name, obj) =>
          match obj with
          | AField l => Some (field_name, l)
          | AOther => None
          end) attrs.

(** [get_declared_fields(bases, attrs)]; [bases] is not used by the
    function.  The result is the ordered dictionary as a list. *)
Definition get_declared_fields (attrs : list (string * attr))
    : Py (list (string * loc)) := fun w =>
  let fields := field_attrs attrs in
  let fields := sorted (counter_of (heap w)) fields in
  let h := register_fields 0 fields (heap w) in
  let fields := sorted (counter_of h) fields in
  Ok (fields, {| creation_counter := creation_counter w; heap := h |}).

(** ** Rows *)

(** The body of a row class: its attributes in the order of the class
    statement, and [separator] and [charset] where it sets them. *)
Record ClassBody := {
  attrs : list (string * attr);
  own_separator : option bytes;
  own_charset : option charset_t
}.

(** A row class: [base_fields] as [RowMeta.__new__] sets it; [separator]
    and [charset] are the class's own or those of [RowBase]. *)
Record RowClass := {
  base_fields : list (string * loc);
  separator : bytes;
  charset : charset_t
}.

Definition RowMeta_new (body : ClassBody) : Py RowClass :=
  fields ← get_declared_fields (attrs body);
  mret {| base_fields := fields;
          separator := default [x3b] (own_separator body);
          charset := default charset_translations (own_charset body) |}.

(** A row object. *)
Record Row := {
  fields : list (string * loc);
  values : gmap string PyVal
}.

(** [RowBase.__init__] with keyword arguments [kwargs]: one entry per field,
    [kwargs.get(field_name)]. *)
Definition RowBase_init (cls : RowClass) (kwargs : gmap string PyVal) : Row :=
  {| fields := base_fields cls;
     values :=
       foldl (fun vs '(field_name, _) =>
                <[field_name := default VNone (kwargs !! field_name)]> vs)
             ∅ (base_fields cls) |}.

(** The generator of [RowBase.output]: each field is processed and its
    text encoded, in the order of [fields]; the first exception ends
    it.  What was logged before stays logged. *)
Fixpoint encoded_fields (h : list Field.t) (cs : charset_t)
    (values : gmap string PyVal) (fields : list (string * loc))
    : result (list bytes) * list LogRecord :=
  match fields with
  | [] => (Ok [], [])
  | (field_name, l) :: rest =>
      match values !! field_name, h !! l with
      | None, _ => (Raise KeyError, [])
      | _, None => (Raise AttributeError, [])
      | Some value, Some field =>
          match process field value with
          | Raise e => (Raise e, [])
          | Ok text =>
              let '(bs, logged) := normalize_and_encode cs text (Some field_name) in
              let '(r, logged') := encoded_fields h cs values rest in
              (parts ← r; Ok (bs :: parts), logged ++ logged')
          end
      end
  end.

(** [RowBase.output] *)
Definition RowBase_output (w : World) (cls : RowClass) (self : Row)
    : result bytes * list LogRecord :=
  let '(r, logged) := encoded_fields (heap w) (charset cls) (values self) (fields self) in
  (parts ← r; Ok (bytes_join (separator cls) parts ++ separator cls), logged).

(** [VorlaufZeile.output] *)
Definition VorlaufZeile_output (w : World) (cls : RowClass) (self : Row)
    : result bytes * list LogRecord :=
  let '(r, logged) := RowBase_output w cls self in
  (output ← r;
   if bool_decide (List.length output = 128%nat) then Ok output
   else Raise AssertionError, logged).

(** [str(row)]: the legend ["<feldnummer>:<name>"] of each field (before
    the join with the separator). *)
Fixpoint describe (h : list Field.t) (fields : list (string * loc))
    : result (list (nat * option string)) :=
  match fields with
  | [] => Ok []
  | (_, l) :: rest =>
      match h !! l with
      | None => Raise AttributeError
      | Some field =>
          n ← feldnummer field;
          items ← describe h rest;
          Ok ((n, Field.name field) :: items)
      end
  end.

(** ** The text chunker *)

(** The characters [str.strip] removes ([str.isspace]). *)
Definition is_space (c : pychar) : bool :=
  ((9 <=? c) && (c <=? 13) || (28 <=? c) && (c <=? 32)
   || (c =? 133) || (c =? 160) || (c =? 5760)
   || (8192 <=? c) && (c <=? 8202)
   || (c =? 8232) || (c =? 8233) || (c =? 8239) || (c =? 8287) || (c =? 12288))%N.

(** The line boundaries of [str.splitlines]. *)
Definition is_linebreak (c : pychar) : bool :=
  ((10 <=? c) && (c <=? 13) || (28 <=? c) && (c <=? 30)
   || (c =? 133) || (c =? 8232) || (c =? 8233))%N.

Fixpoint lstrip (s : pystr) : pystr :=
  match s with
  | [] => []
  | c :: s' => if is_space c then lstrip s' else s
  end.

Definition rstrip (s : pystr) : pystr := reverse (lstrip (reverse s)).

(** [s.strip()] *)
Definition strip (s : pystr) : pystr := rstrip (lstrip s).

(** [s.splitlines()]: [cur] holds, reversed, the characters read since
    the last boundary; a carriage return followed by a line feed is one
    boundary; a last line is kept only when it is not empty. *)
Fixpoint splitlines_from (cur : pystr) (s : pystr) : list pystr :=
  match s with
  | [] => match cur with [] => [] | _ => [reverse cur] end
  | c :: rest =>
      if is_linebreak c then
        reverse cur ::
          match rest with
          | c' :: rest' =>
              if ((c =? 13) && (c' =? 10))%N then splitlines_from [] rest'
              else splitlines_from [] rest
          | [] => []
          end
      else splitlines_from (c :: cur) rest
  end.

Definition splitlines (s : pystr) : list pystr := splitlines_from [] s.

(** The position a slice bound [k] stands for in a sequence of length
    [n]: a negative bound counts from the end. *)
Definition slice_index (n : nat) (k : Z) : nat :=
  if k <? 0 then Z.to_nat (Z.max 0 (Z.of_nat n + k)) else Z.to_nat k.

(** [s[:k]] and [s[k:]] *)
Definition slice_to (s : pystr) (k : Z) : pystr := take (slice_index (List.length s) k) s.
Definition slice_from (s : pystr) (k : Z) : pystr := drop (slice_index (List.length s) k) s.

(** [s.rfind(sub)]: the highest index at which [sub] starts in [s], or
    [-1]. *)
Fixpoint rfind_from (i : Z) (found : Z) (s sub : pystr) : Z :=
  let found := if bool_decide (sub `prefix_of` s) then i else found in
  match s with
  | [] => found
  | _ :: s' => rfind_from (i + 1) found s' sub
  end.

Definition rfind (s sub : pystr) : Z := rfind_from 0 (-1) s sub.

(** The [while True] loop of [chunk_text] on one line, for at most
    [fuel] iterations: the chunks appended so far, and whether the loop
    reached its [break]. *)
Fixpoint chunk_line (fuel : nat) (chunk_size : Z) (split_char : pystr)
    (line : pystr) (chunks : list pystr) : list pystr * bool :=
  match fuel with
  | O => (chunks, false)
  | S fuel' =>
      let line := strip line in
      if chunk_size <? len line then
        let separate_at := rfind (slice_to line chunk_size) split_char in
        let separate_at := if separate_at =? -1 then chunk_size else separate_at in
        let chunk := slice_to line separate_at in
        let line := slice_from line separate_at in
        chunk_line fuel' chunk_size split_char line (chunks ++ [chunk])
      else (chunks ++ [line], true)
  end.

(** The [for line in lines] loop; a line whose loop does not end keeps
    the later lines from being read. *)
Fixpoint chunk_lines (fuel : nat) (chunk_size : Z) (split_char : pystr)
    (lines : list pystr) (chunks : list pystr) : list pystr * bool :=
  match lines with
  | [] => (chunks, true)
  | line :: rest =>
      let '(chunks, finished) := chunk_line fuel chunk_size split_char line chunks in
      if finished then chunk_lines fuel chunk_size split_char rest chunks
      else (chunks, false)
  end.

(** [chunk_text] run with [fuel] iterations for each line: the chunks
    emitted, and whether the function returned. *)
Definition chunk_text_run (fuel : nat) (text : pystr) (chunk_size : Z)
    (split_char : pystr) : list pystr * bool :=
  chunk_lines fuel chunk_size split_char (splitlines (nfkc text)) [].

(** [chunk_text(text, chunk_size, split_char)]: the list returned, if
    [fuel] iterations per line are enough. *)
Definition chunk_text (fuel : nat) (text : pystr) (chunk_size : Z)
    (split_char : pystr) : option (list pystr) :=
  let '(chunks, finished) := chunk_text_run fuel text chunk_size split_char in
  if finished then Some chunks else None.

End Normalize.

(** ** The row definitions of [rows.py] *)

Definition kw_length (n : nat) : Kw.t := Kw.with_length n Kw.default.
Definition kw_max_length (n : nat) : Kw.t := Kw.with_max_length n Kw.default.

Definition VorlaufZeile_body : Py ClassBody :=
  satzartenkennzeichen ← new (StaticField_init (u "V") Kw.default);
  dummy ← new (StaticField_init (u " ") Kw.default);
  erstellungsdatum ← new (ShortDateField_init Kw.default);
  informationstext1 ← new (StringField_init None (kw_length 40));
  informationstext2 ← new (StringField_init None (kw_length 40));
  informationstext3 ← new (StringField_init None (kw_length 35));
  version ← new (StaticField_init (u "04") Kw.default);
  waehrungskennzeichen ← new (StaticField_init (u "EUR") Kw.default);
  mret {| attrs :=
            [ ("satzartenkennzeichen", AField satzartenkennzeichen);
              ("dummy", AField dummy);
              ("erstellungsdatum", AField erstellungsdatum);
              ("informationstext1", AField informationstext1);
              ("informationstext2", AField informationstext2);
              ("informationstext3", AField informationstext3);
              ("version", AField version);
              ("waehrungskennzeichen", AField waehrungskennzeichen);
              ("separator", AOther);
              ("output", AOther) ];
          own_separator := Some [];
          own_charset := None |}.

(** The fourteen two-character codes of [textkennzeichen]. *)
Definition textkennzeichen_values : PyColl :=
  CSeq (x ← [u "0"; u "1"; u "2"; u "3"; u "4"; u "5"; u "6"];
        y ← [u "0"; u "1"];
        [VStr (x ++ y)]).

Definition Artikelzeile_body : Py ClassBody :=
  satzartenkennzeichen ← new (StaticField_init (u "A") Kw.default);
  verarbeitungsmerker ← new (StringField_init (Some (CStr (u "AN"))) (kw_length 1));
  artikelnummer ← new (StringField_init None (kw_max_length 15));
  textkennzeichen ← new (StringField_init (Some textkennzeichen_values) (kw_length 2));
  kurztext_1 ← new (StringField_init None (kw_max_length 40));
  kurztext_2 ← new (StringField_init None (kw_max_length 40));
  preiskennzeichen ← new (IntegerField_init (Some (CSeq [VInt 1; VInt 2])) (kw_length 1));
  preiseinheit ←
    new (IntegerField_init (Some (CSeq [VInt 0; VInt 1; VInt 2; VInt 3])) (kw_max_length 6));
  mengeneinheit ← new (StringField_init None (kw_max_length 4));
  preis ← new (IntegerField_init None (kw_max_length 8));
  rabattgruppe ← new (StringField_init None (kw_max_length 4));
  hauptwarengruppe ← new (StringField_init None (kw_max_length 3));
  langtextnummer ← new (StringField_init None (kw_max_length 15));
  mret {| attrs :=
            [ ("satzartenkennzeichen", AField satzartenkennzeichen);
              ("verarbeitungsmerker", AField verarbeitungsmerker);
              ("artikelnummer", AField artikelnummer);
              ("TEXT_KURZ1_KURZ2", AOther);
              ("TEXT_LANG_KURZ2", AOther);
              ("TEXT_KURZ1_DIM", AOther);
              ("TEXT_LANG_DIM", AOther);
              ("TEXT_KURZ1_KURZ2_LANG", AOther);
              ("TEXT_KURZ1_KURZ2_DIM", AOther);
              ("TEXT_KURZ1_KURZ2_LANG_DIM", AOther);
              ("TEXT_HAS_KURZ2_TRUE", AOther);
              ("TEXT_HAS_KURZ2_FALSE", AOther);
              ("textkennzeichen", AField textkennzeichen);
              ("kurztext_1", AField kurztext_1);
              ("kurztext_2", AField kurztext_2);
              ("PREIS_LISTENPREIS", AOther);
              ("PREIS_NETTOPREIS", AOther);
              ("preiskennzeichen", AField preiskennzeichen);
              ("PRICE_BY_1_UNIT", AOther);
              ("PRICE_BY_10_UNITS", AOther);
              ("PRICE_BY_100_UNITS", AOther);
              ("PRICE_BY_1000_UNITS", AOther);
              ("preiseinheit", AField preiseinheit);
              ("mengeneinheit", AField mengeneinheit);
              ("preis", AField preis);
              ("rabattgruppe", AField rabattgruppe);
              ("hauptwarengruppe", AField hauptwarengruppe);
              ("langtextnummer", AField langtextnummer) ];
          own_separator := None;
          own_charset := None |}.

Definition Artikelzeile2_body : Py ClassBody :=
  satzartenkennzeichen ← new (StaticField_init (u "B") Kw.default);
  verarbeitungsmerker ← new (StringField_init (Some (CStr (u "AN"))) (kw_length 1));
  artikelnummer ← new (StringField_init None (kw_max_length 15));
  matchcode ← new (StringField_init None (kw_max_length 15));
  alternativ_artikelnummer ← new (StringField_init None (kw_max_length 15));
  katalogseite ← new (StringField_init None (kw_max_length 8));
  kupfer_gewichtsmerker ← new (StaticField_init (u "0") Kw.default);
  kupfer_kennzahl ← new (StaticField_init (u "0") Kw.default);
  kupfer_gewicht ← new (StaticField_init (u "0") Kw.default);
  ean ← new (StringField_init None (kw_max_length 18));
  anbindungsnummer ← new (StringField_init None (kw_max_length 12));
  warengruppe ← new (StringField_init None (kw_max_length 10));
  kostenart ← new (StaticField_init (u "0") Kw.default);
  verpackungsmenge ← new (IntegerField_init None (kw_max_length 5));
  referenznummer_erstellerkuerzel ← new (StringField_init None (kw_max_length 4));
  referenznummer ← new (StringField_init None (kw_max_length 17));
  mret {| attrs :=
            [ ("satzartenkennzeichen", AField satzartenkennzeichen);
              ("verarbeitungsmerker", AField verarbeitungsmerker);
              ("artikelnummer", AField artikelnummer);
              ("matchcode", AField matchcode);
              ("alternativ_artikelnummer", AField alternativ_artikelnummer);
              ("katalogseite", AField katalogseite);
              ("kupfer_gewichtsmerker", AField kupfer_gewichtsmerker);
              ("kupfer_kennzahl", AField kupfer_kennzahl);
              ("kupfer_gewicht", AField kupfer_gewicht);
              ("ean", AField ean);
              ("anbindungsnummer", AField anbindungsnummer);
              ("warengruppe", AField warengruppe);
              ("kostenart", AField kostenart);
              ("verpackungsmenge", AField verpackungsmenge);
              ("referenznummer_erstellerkuerzel", AField referenznummer_erstellerkuerzel);
              ("referenznummer", AField referenznummer) ];
          own_separator := None;
          own_charset := None |}.

(** The module [rows.py] as far as the properties below and the
    repository's tests use it; its classes are created in this order
    when the module is imported. *)
Record rows_module := {
  VorlaufZeile : RowClass;
  Artikelzeile : RowClass;
  Artikelzeile2 : RowClass
}.

Definition import_rows : Py rows_module :=
  vorlauf ← VorlaufZeile_body ≫= RowMeta_new;
  artikel ← Artikelzeile_body ≫= RowMeta_new;
  artikel2 ← Artikelzeile2_body ≫= RowMeta_new;
  mret {| VorlaufZeile := vorlauf; Artikelzeile := artikel; Artikelzeile2 := artikel2 |}.

(** The [output] of a row of class [cls] created with the keyword
    arguments [kwargs], in the interpreter state [w]. *)
Definition output_of (nfkc : pystr → pystr) (w : World) (cls : RowClass)
    (kwargs : list (string * PyVal)) : result bytes :=
  (RowBase_output nfkc w cls (RowBase_init cls (list_to_map kwargs))).1.

(** The module and the interpreter state once [rows.py] has been
    imported by a fresh interpreter. *)
Definition loaded : rows_module * World.
Proof.
  let r := eval cbv -[charset_translations] in (import_rows world0) in
  match r with Ok ?x => exact x end.
Defined.

Definition rows : rows_module := loaded.1.
Definition W : World := loaded.2.

(** A bytes literal. *)
Definition bytes_lit (s : string) : bytes := list_byte_of_string s.

(** The class of the example of C3: a field with an explicit name,
    then one without. *)
Definition NamedRow_body : Py ClassBody :=
  first ← new (StringField_init None (Kw.with_name "First" (kw_max_length 3)));
  second ← new (StringField_init None (kw_max_length 3));
  mret {| attrs := [("first", AField first); ("second", AField second)];
          own_separator := None;
          own_charset := None |}.

(** The ordinals of the fields of a class, in the order of
    [base_fields]. *)
Definition ordinals (w : World) (cls : RowClass) : list (option nat) :=
  omap (fun '(_, l) => Field.index <$> heap w !! l) (base_fields cls).

(** ** Notions used by the properties *)

Definition text_kind (f : Field.t) : Prop :=
  Field.cls f = StringField ∨ Field.cls f = CurrencyField.

(** Field [entry] of a row created with [kwargs] processes to [text]. *)
Definition processed (w : World) (kwargs : gmap string PyVal)
    (entry : string * loc) (text : pystr) : Prop :=
  ∃ field, heap w !! entry.2 = Some field
           ∧ process field (default VNone (kwargs !! entry.1)) = Ok text.

(** The bytes of the text of field [entry]. *)
Definition encoded (nfkc : pystr → pystr) (cs : charset_t)
    (entry : string * loc) (text : pystr) : bytes :=
  (normalize_and_encode nfkc cs text (Some entry.1)).1.

(** The class of [test_separator]: two text fields and an underscore
    as separator, in a fresh interpreter. *)
Definition SeparatorRow_body : Py ClassBody :=
  a ← new (StringField_init None (kw_max_length 30));
  b ← new (StringField_init None (kw_max_length 30));
  mret {| attrs := [("separator", AOther); ("a", AField a); ("b", AField b)];
          own_separator := Some (bytes_lit "_");
          own_charset := None |}.

Definition SeparatorRow : RowClass * World.
Proof.
  let r := eval cbv -[charset_translations] in ((SeparatorRow_body ≫= RowMeta_new) world0) in
  match r with Ok ?x => exact x end.
Defined.

(** The class of [test_translation]: the same fields with the default
    separator. *)
Definition TranslationRow_body : Py ClassBody :=
  a ← new (StringField_init None (kw_max_length 30));
  b ← new (StringField_init None (kw_max_length 30));
  mret {| attrs := [("a", AField a); ("b", AField b)];
          own_separator := None;
          own_charset := None |}.

Definition TranslationRow : RowClass * World.
Proof.
  let r := eval cbv -[charset_translations] in ((TranslationRow_body ≫= RowMeta_new) world0) in
  match r with Ok ?x => exact x end.
Defined.

(** The characters the normalisation is known to leave alone: ASCII and
    the characters of the default table.  A text made of them is in
    normal form (the seven letters of [custom_characters] are single
    precomposed code points). *)
Definition inert_char (c : pychar) : Prop :=
  (c < 128)%N ∨ is_Some (charset_translations !! c).

Definition NFKC_inert (nfkc : pystr → pystr) : Prop :=
  ∀ s, Forall inert_char s → nfkc s = s.

(** Whenever the fields of a header row validate, its output is 128
    bytes. *)
Definition header_always_128 (nfkc : pystr → pystr) : Prop :=
  ∀ kwargs texts,
    Forall2 (processed W kwargs) (base_fields (VorlaufZeile rows)) texts →
    ∃ output,
      (VorlaufZeile_output nfkc W (VorlaufZeile rows)
         (RowBase_init (VorlaufZeile rows) kwargs)).1 = Ok output
      ∧ List.length output = 128%nat.

(** A header whose first information text is forty semicolons. *)
Definition semicolon_header : gmap string PyVal :=
  list_to_map
    [ ("erstellungsdatum", VDate 2014 10 11);
      ("informationstext1", VStr (replicate 40 59%N));
      ("informationstext2", VStr (replicate 40 32%N));
      ("informationstext3", VStr (replicate 35 32%N)) ].

Definition semicolon_header_texts : list pystr :=
  [ u "V"; u " "; u "111014"; replicate 40 59%N; replicate 40 32%N;
    replicate 35 32%N; u "04"; u "EUR" ].

(** The header of the repository's example export (with a fixed
    date). *)
Definition example_header : gmap string PyVal :=
  list_to_map
    [ ("datenkennzeichen", VStr (u "A"));
      ("waehrungskennzeichen", VStr (u "EUR"));
      ("erstellungsdatum", VDate 2014 10 11);
      ("informationstext1", VStr (replicate 40 32%N));
      ("informationstext2", VStr (replicate 40 32%N));
      ("informationstext3", VStr (replicate 35 32%N)) ].

Definition example_header_texts : list pystr :=
  [ u "V"; u " "; u "111014"; replicate 40 32%N; replicate 40 32%N;
    replicate 35 32%N; u "04"; u "EUR" ].





(** A list in ascending order of [key]. *)
Fixpoint ordered {A} (key : A → nat) (l : list A) : Prop :=
  match l with
  | [] => True
  | x :: l' => Forall (fun y => (key x ≤ key y)%nat) l' ∧ ordered key l'
  end.

(** The interpreter state after the body of [TranslationRow], before
    its registration. *)
Definition TranslationRow_unregistered : ClassBody * World.
Proof.
  let r := eval cbv in (TranslationRow_body world0) in
  match r with Ok ?x => exact x end.
Defined.

(** A chunk that fits the width. *)
Definition fits (chunk_size : Z) (chunk : pystr) : Prop := len chunk ≤ chunk_size.

(** A separator that begins with a whitespace character, as the
    default [" "] does. *)
Definition space_led (split_char : pystr) : Prop :=
  ∃ c rest, split_char = c :: rest ∧ is_space c = true.

(** ** Further notions: digits, state invariants, legends *)

(** A decimal digit. *)
Definition is_digit (c : pychar) : Prop := (48 ≤ c ≤ 57)%N.

(** The interpreter state as constructor calls leave it: every
    creation counter in the heap is below the class-wide counter, and
    an object at a higher location (made later) has a higher creation
    counter. *)
Definition counters_ascending (w : World) : Prop :=
  (∀ l f, heap w !! l = Some f →
          (Field.creation_counter f < creation_counter w)%nat)
  ∧ (∀ l l' f f', (l < l')%nat → heap w !! l = Some f → heap w !! l' = Some f' →
                  (Field.creation_counter f < Field.creation_counter f')%nat).

(** [bs.decode("ascii")]: a byte above 127 raises [UnicodeDecodeError],
    which is a [ValueError]. *)
Definition decode_ascii (bs : bytes) : result pystr :=
  if forallb (fun x => (Byte.to_N x <? 128)%N) bs then Ok (Byte.to_N <$> bs)
  else Raise (ValueError "UnicodeDecodeError").

(** [sep.join(parts)] on strings. *)
Fixpoint str_join (sep : pystr) (parts : list pystr) : pystr :=
  match parts with
  | [] => []
  | [p] => p
  | p :: rest => p ++ sep ++ str_join sep rest
  end.

(** ["%s:%s" % (feldnummer, name)], for a name made of ASCII
    characters (one character a byte). *)
Definition legend (feldnummer : nat) (name : option string) : pystr :=
  digits (N.of_nat feldnummer) ++ u ":"
  ++ match name with
     | Some s => u s
     | None => u "None"
     end.

(** [RowBase.__str__]: the separator is decoded first, then the
    legends of the fields are made and joined. *)
Definition RowBase_str (w : World) (cls : RowClass) (self : Row) : result pystr :=
  sep ← decode_ascii (separator cls);
  items ← describe (heap w) (fields self);
  Ok (str_join sep ((fun item : nat * option string => legend item.1 item.2) <$> items)).

(** What the encoder logs for the text of field [entry]. *)
Definition logged_for (nfkc : pystr → pystr) (cs : charset_t)
    (entry : string * loc) (text : pystr) : list LogRecord :=
  (normalize_and_encode nfkc cs text (Some entry.1)).2.

(** The characters of a text that are not whitespace, in order. *)
Definition nonspace (s : pystr) : pystr := filter (fun c => is_space c = false) s.

(** A chunk does not begin with whitespace. *)
Definition no_leading_space (chunk : pystr) : Prop :=
  ∀ c rest, chunk = c :: rest → is_space c = false.

(** The cut position an iteration of [chunk_text] computes on a
    stripped line. *)
Definition cut_position (chunk_size : Z) (split_char line : pystr) : Z :=
  let separate_at := rfind (slice_to line chunk_size) split_char in
  if separate_at =? -1 then chunk_size else separate_at.

(** * Properties *)

(** ** The repository's tests and other evaluations *)

Example fmt_0d_pad : fmt_0d 3 10 = u "010".
Proof. reflexivity. Qed.

Example fmt_0d_neg : fmt_0d 3 (-5) = u "-05".
Proof. reflexivity. Qed.

Example fmt_0d_wide : fmt_0d 3 1000 = u "1000".
Proof. reflexivity. Qed.

Example py_str_date : py_str (VDate 2014 10 11) = u "2014-10-11".
Proof. reflexivity. Qed.

Example IntegerField_padding :
  (p ← IntegerField_init None (Kw.with_length 3 Kw.default) 0; process p.1 (VInt 10))
  = Ok (u "010").
Proof. reflexivity. Qed.

Example IntegerField_values :
  (p ← IntegerField_init (Some (CSeq [VInt 0; VInt 1; VInt 2])) Kw.default 0;
   process p.1 (VInt 4))
  = Raise (ValueError "Value not allowed").
Proof. reflexivity. Qed.

Example StaticField_invalid :
  (p ← StaticField_init (u "abc") Kw.default 0; process p.1 (VStr (u "d")))
  = Raise (ValueError "invalid value").
Proof. reflexivity. Qed.

Example DateField_date :
  (p ← DateField_init Kw.default 0; process p.1 (VDate 2014 10 11)) = Ok (u "20141011").
Proof. reflexivity. Qed.

Example ShortDateField_date :
  (p ← ShortDateField_init Kw.default 0; process p.1 (VDate 2014 10 11)) = Ok (u "111014").
Proof. reflexivity. Qed.

Example ascii_pairs_complete : map fst ascii_pairs = valid_ascii_characters.
Proof. reflexivity. Qed.

Example splitlines_ex :
  splitlines (u "ab" ++ [13; 10]%N ++ [10%N] ++ u "c" ++ [13%N] ++ u "d" ++ [10%N])
  = [u "ab"; []; u "c"; u "d"].
Proof. reflexivity. Qed.

Example strip_ex : strip (u "  a b " ++ [9%N]) = u "a b".
Proof. reflexivity. Qed.

Example rfind_ex : rfind (u "ABC D") (u " ") = 3 /\ rfind (u "ABCDE") (u " ") = -1
  /\ rfind (u "ABCDE") [] = 5.
Proof. repeat split. Qed.

Example chunk_text_words :
  chunk_text (fun s => s) 10 (u "ABC DEF GHI JKL MNO QRS") 5 (u " ")
  = Some [u "ABC"; u "DEF"; u "GHI"; u "JKL"; u "MNO"; u "QRS"].
Proof. reflexivity. Qed.

Example chunk_text_long_words :
  chunk_text (fun s => s) 10 (u "ABCDEFGHI JKLMNOQRS") 5 (u " ")
  = Some [u "ABCDE"; u "FGHI"; u "JKLMN"; u "OQRS"].
Proof. reflexivity. Qed.

Lemma import_rows_loaded : import_rows world0 = Ok loaded.
Proof. reflexivity. Qed.

Lemma SeparatorRow_created : (SeparatorRow_body ≫= RowMeta_new) world0 = Ok SeparatorRow.
Proof. reflexivity. Qed.

Lemma TranslationRow_created :
  (TranslationRow_body ≫= RowMeta_new) world0 = Ok TranslationRow.
Proof. reflexivity. Qed.

Lemma TranslationRow_body_run : TranslationRow_body world0 = Ok TranslationRow_unregistered.
Proof. reflexivity. Qed.

(** The repository's tests of rows, with the identity for the
    normalisation (the texts are in normal form). *)
Example test_example_output_A :
  output_of (fun s => s) W (Artikelzeile rows)
    [ ("verarbeitungsmerker", VStr (u "N")); ("artikelnummer", VStr (u "12345"));
      ("textkennzeichen", VStr (u "10")); ("kurztext_1", VStr (u "one product"));
      ("kurztext_2", VStr (u " ")); ("preiskennzeichen", VInt 1);
      ("preiseinheit", VInt 0); ("mengeneinheit", VStr (u "PCE"));
      ("preis", VInt 1999); ("rabattgruppe", VStr (u " "));
      ("hauptwarengruppe", VStr (u " ")); ("warengruppe", VStr (u " "));
      ("langtextnummer", VStr (u " ")) ]
  = Ok (bytes_lit "A;N;12345;10;one product; ;1;0;PCE;1999; ; ; ;").
Proof. vm_compute. reflexivity. Qed.

Example test_example_output_B :
  output_of (fun s => s) W (Artikelzeile2 rows)
    [ ("verarbeitungsmerker", VStr (u "N")); ("artikelnummer", VStr (u "12345"));
      ("matchcode", VStr (u " ")); ("alternativ_artikelnummer", VStr (u " "));
      ("katalogseite", VStr (u " ")); ("ean", VStr (u "0123456789012"));
      ("anbindungsnummer", VStr (u " ")); ("warengruppe", VStr (u " "));
      ("verpackungsmenge", VInt 1); ("referenznummer_erstellerkuerzel", VStr (u " "));
      ("referenznummer", VStr (u " ")) ]
  = Ok (bytes_lit "B;N;12345; ; ; ;0;0;0;0123456789012; ; ;0;1; ; ;").
Proof. vm_compute. reflexivity. Qed.

Example test_translation :
  (normalize_and_encode (fun s => s) charset_translations [252%N] None).1 = [x81].
Proof. vm_compute. reflexivity. Qed.

(** ** Allowed values of text fields *)

Lemma StringField_init_values values kw counter f counter' :
  StringField_init values kw counter = Ok (f, counter') → Field.values f = None.
Proof.
  unfold StringField_init, FieldBase_init.
  destruct (_ && _); [discriminate|]. by intros [= <- _].
Qed.

(** C1 (the code departs from the claim): the field
    [Artikelzeile.verarbeitungsmerker], declared as
    [StringField(values="AN", length=1)], has no [values] once
    constructed, and its [process] returns ["X"] instead of raising. *)
Theorem verarbeitungsmerker_accepts_X :
  match heap W !! 9%nat with
  | Some field =>
      Field.field_name field = Some "verarbeitungsmerker"
      ∧ Field.values field = None
      ∧ process field (VStr (u "X")) = Ok (u "X")
  | None => False
  end
  ∧ (p ← StringField_init (Some (CStr (u "AN"))) (kw_length 1) 0;
     process p.1 (VStr (u "X"))) = Ok (u "X").
Proof. split; [vm_compute; by repeat split | reflexivity]. Qed.

(** ** Ordinals after registration *)

(** C3 (the code departs from the claim): in a class whose first field
    was given an explicit name, that field has no ordinal after
    registration (the second has ordinal 1), and asking for its
    [feldnummer] raises [TypeError]. *)
Theorem explicit_name_leaves_index_unset :
  match (NamedRow_body ≫= RowMeta_new) world0 with
  | Ok (cls, w) =>
      base_fields cls = [("first", 0%nat); ("second", 1%nat)]
      ∧ ordinals w cls = [None; Some 1%nat]
      ∧ describe (heap w) (base_fields cls) = Raise TypeError
  | Raise _ => False
  end.
Proof. vm_compute. by repeat split. Qed.

(** ** The charset encoder *)

Section Encoder.
Variable nfkc : pystr → pystr.

Lemma mjoin_cons {A} (x : list A) (l : list (list A)) : mjoin (x :: l) = x ++ mjoin l.
Proof. reflexivity. Qed.

Lemma encoded_drops_missing (charset : charset_t) (s : pystr) :
  mjoin (map (fun x => default [] (charset !! x)) s)
  = mjoin (omap (fun x => charset !! x) s).
Proof.
  induction s as [|c s IH]; [done|].
  change (default [] (charset !! c)
            ++ mjoin (map (fun x => default [] (charset !! x)) s)
          = mjoin (match charset !! c with
                   | Some bs => bs :: omap (fun x => charset !! x) s
                   | None => omap (fun x => charset !! x) s
                   end)).
  rewrite IH. by destruct (charset !! c).
Qed.

Lemma normalize_and_encode_bytes charset value field_name :
  (normalize_and_encode nfkc charset value field_name).1
  = mjoin (omap (fun x => charset !! x) (nfkc value)).
Proof. apply encoded_drops_missing. Qed.

(** C5: the encoder is a total function of the table, the text and the
    optional label.  Its bytes are the table's entries for the
    characters of the normalised text, in order, the characters without
    an entry being left out; at most one record is logged, and the
    characters it reports are exactly those without an entry. *)
Theorem normalize_and_encode_total charset value field_name :
  let r := normalize_and_encode nfkc charset value field_name in
  r.1 = mjoin (omap (fun x => charset !! x) (nfkc value))
  ∧ (List.length r.2 ≤ 1)%nat
  ∧ ∀ c, (∃ record, record ∈ r.2 ∧ c ∈ invalid_characters record)
         ↔ c ∈ nfkc value ∧ charset !! c = None.
Proof.
  cbv zeta. split; [apply normalize_and_encode_bytes|].
  unfold normalize_and_encode; cbn [snd].
  set (invalid := list_to_set (nfkc value) ∖ dom charset : gset N).
  assert (Hin : ∀ c, c ∈ invalid ↔ c ∈ nfkc value ∧ charset !! c = None).
  { intros c. unfold invalid.
    rewrite elem_of_difference, elem_of_list_to_set, not_elem_of_dom. done. }
  case_bool_decide as Hempty; cbn [List.length]; (split; [lia|]); intros c.
  - split.
    + intros (record & Hr & _). by apply elem_of_nil in Hr.
    + intros Hc. apply Hin in Hc. rewrite Hempty in Hc. set_solver.
  - split.
    + intros (record & Hr & Hc). apply list_elem_of_singleton in Hr as ->.
      by apply Hin.
    + intros Hc. eexists. split; [apply list_elem_of_singleton; reflexivity|].
      by apply Hin.
Qed.

End Encoder.

(** ** Text fields: newlines and length *)

Lemma replace_char_length old new s :
  List.length (replace_char old new s) = List.length s.
Proof. apply length_fmap. Qed.

Lemma replace_char_not_elem old new s : old ≠ new → old ∉ replace_char old new s.
Proof.
  intros Hne Hin. unfold replace_char in Hin.
  apply list_elem_of_fmap in Hin as (c & Hc & _).
  case_decide; congruence.
Qed.

Lemma str_or_empty_falsy v : truthy v = false → str_or_empty v = [].
Proof. unfold str_or_empty. by intros ->. Qed.

(** What [StringField.process] returns when it returns. *)
Lemma StringField_process_Ok f v t :
  StringField_process f v = Ok t →
  t = replace_char 10%N 32%N (str_or_empty v)
  ∧ (truthy v = false ∧ Field.blank f = true
     ∨ (is_set (Field.length f) = true →
          Some (List.length (str_or_empty v)) = Field.length f)
       ∧ (is_set (Field.max_length f) = true →
          (List.length (str_or_empty v) ≤ default 0%nat (Field.max_length f))%nat)).
Proof.
  unfold StringField_process.
  destruct (negb (truthy v) && Field.blank f) eqn:Hblank.
  { intros [= <-]. apply andb_true_iff in Hblank as [Hv Hb].
    apply negb_true_iff in Hv. rewrite (str_or_empty_falsy _ Hv). auto. }
  destruct (negb (truthy v) && Field.required f); [discriminate|].
  destruct (not_permitted (Field.values f) v) as [[|]|]; cbn; try discriminate.
  destruct (bool_decide (v = VNone) && is_set (Field.length f)); [discriminate|].
  destruct (is_set (Field.length f) && _) eqn:Hlen; [discriminate|].
  destruct (is_set (Field.max_length f) && _) eqn:Hmax; [discriminate|].
  intros [= <-]. split; [done|]. right. split.
  - intros Hset. rewrite Hset in Hlen. cbn in Hlen.
    apply negb_false_iff, bool_decide_eq_true in Hlen. done.
  - intros Hset. rewrite Hset in Hmax. cbn in Hmax.
    apply bool_decide_eq_false in Hmax. lia.
Qed.

(** C9, as the code has it: a text field that accepts a value returns
    the text of the value with every line feed (U+000A) replaced by a
    space; the result has no line feed, has the length of the text, and
    keeps every other character, other line boundaries included. *)
Theorem text_field_replaces_line_feeds f v t :
  text_kind f →
  process f v = Ok t →
  t = replace_char 10%N 32%N (str_or_empty v)
  ∧ (10%N ∉ t)
  ∧ List.length t = List.length (str_or_empty v)
  ∧ ∀ i c, str_or_empty v !! i = Some c → c ≠ 10%N → t !! i = Some c.
Proof.
  intros Hkind Hp.
  assert (Hs : StringField_process f v = Ok t).
  { unfold process in Hp. by destruct Hkind as [E | E]; rewrite E in Hp. }
  apply StringField_process_Ok in Hs as [-> _].
  split; [done|]. split; [by apply replace_char_not_elem|].
  split; [apply replace_char_length|].
  intros i c Hi Hc. unfold replace_char. rewrite list_lookup_fmap, Hi. cbn.
  by case_decide.
Qed.

Lemma text_field_replaces_line_feeds_witness :
  ∃ f, process f (VStr (u "a" ++ [10%N] ++ u "b")) = Ok (u "a b")
       ∧ (10%N ∉ u "a b").
Proof.
  exists (Field.mk StringField None 0 None (Some 5%nat) None false None false None).
  split; [reflexivity|].
  refine (proj1 (proj2 (text_field_replaces_line_feeds
    (Field.mk StringField None 0 None (Some 5%nat) None false None false None)
    (VStr (u "a" ++ [10%N] ++ u "b")) (u "a b") _ _))).
  - left; reflexivity.
  - reflexivity.
Defined.

(** C9, as stated, fails: a carriage return (U+000D) in an accepted
    value is still in the text returned. *)
Lemma StringField_keeps_carriage_return :
  ∃ f t, text_kind f
         ∧ process f (VStr (u "a" ++ [13%N] ++ u "b")) = Ok t
         ∧ (13%N ∈ t) ∧ is_linebreak 13 = true.
Proof.
  exists (Field.mk StringField None 0 None (Some 5%nat) None false None false None).
  exists (u "a" ++ [13%N] ++ u "b").
  split; [by left|]. split; [reflexivity|]. split; [|reflexivity].
  cbn. set_solver.
Qed.

(** ** Required fields and empty values *)

(** C8, as the code has it: with [required] set and [blank] unset, a
    text field rejects every empty value ([None], [""], [0]) with a
    [ValueError]; a date field and an integer field of fixed length
    reject [None] with a [ValueError]; a static field returns its
    constant for [None]. *)
Theorem required_field_empty_value f :
  Field.required f = true →
  Field.blank f = false →
  match Field.cls f with
  | StringField | CurrencyField =>
      ∀ v, truthy v = false →
           process f v = Raise (ValueError "Field must not be empty")
  | ShortDateField | DateField =>
      process f VNone = Raise (ValueError "None is not a valid date")
  | IntegerField =>
      is_set (Field.length f) = true →
      process f VNone = Raise (ValueError "Field with fixed length can't be None")
  | StaticField static_value => process f VNone = Ok static_value
  end.
Proof.
  intros Hreq Hblank. unfold process.
  destruct (Field.cls f) eqn:Hcls.
  - intros v Hv. unfold StringField_process. by rewrite Hv, Hblank, Hreq.
  - intros Hset. unfold IntegerField_process. by rewrite Hblank, Hset.
  - unfold ShortDateField_process. by rewrite Hblank.
  - unfold DateField_process. by rewrite Hblank.
  - intros v Hv. unfold StringField_process. by rewrite Hv, Hblank, Hreq.
  - reflexivity.
Qed.

Lemma required_field_empty_value_witness :
  process (Field.mk StringField None 0 None (Some 5%nat) None true None false None)
          (VStr [])
  = Raise (ValueError "Field must not be empty").
Proof.
  exact (required_field_empty_value
           (Field.mk StringField None 0 None (Some 5%nat) None true None false None)
           eq_refl eq_refl (VStr []) eq_refl).
Defined.

(** C8, as stated, fails: a required static field that does not allow
    blanks accepts [None]. *)
Lemma StaticField_required_accepts_None :
  (p ← StaticField_init (u "V") (Kw.with_required true Kw.default) 0;
   Ok (Field.required p.1, Field.blank p.1, process p.1 VNone))
  = Ok (true, false, Ok (u "V")).
Proof. reflexivity. Qed.

(** A required integer field without fixed length returns the empty
    text for [None]: [IntegerField.process] never reads [required]. *)
Example IntegerField_required_accepts_None :
  (p ← IntegerField_init None (Kw.with_required true (kw_max_length 5)) 0;
   Ok (Field.required p.1, Field.blank p.1, process p.1 VNone))
  = Ok (true, false, Ok []).
Proof. reflexivity. Qed.

(** ** Fields of fixed length *)

Lemma uint_codes_nil d : uint_codes d = [] → d = Decimal.Nil.
Proof. by destruct d. Qed.

Lemma digits_nonempty n : digits n ≠ [].
Proof.
  unfold digits. intros H%uint_codes_nil. destruct n as [|p]; [discriminate|].
  by apply (DecimalPos.Unsigned.to_uint_nonnil p).
Qed.

Lemma fmt_0d_length width z :
  List.length (fmt_0d width z) = (width `max` List.length (fmt_d z))%nat.
Proof.
  unfold fmt_0d, fmt_d. destruct (z <? 0); cbn [List.length];
    rewrite ?length_app, ?length_replicate; cbn [List.length]; lia.
Qed.

Lemma fmt_0d_nonempty width z : fmt_0d width z ≠ [].
Proof.
  unfold fmt_0d. pose proof (digits_nonempty (Z.abs_N z)) as Hd.
  destruct (z <? 0); [done|].
  destruct (replicate _ _); [done|done].
Qed.

Lemma FieldBase_init_Ok cls values kw counter f counter' :
  FieldBase_init cls values kw counter = Ok (f, counter') →
  f = Field.mk cls values counter (Kw.length kw) (Kw.max_length kw)
        (Kw.name kw) (Kw.required kw) (Kw.index kw) (Kw.blank kw) None
  ∧ counter' = S counter.
Proof.
  unfold FieldBase_init. destruct (_ && _); [discriminate|]. by intros [= <- <-].
Qed.

(** The class of a constructed field is the class asked for, and the
    length of a static field is the length of its constant. *)
Lemma construct_Ok cls values kw counter f counter' :
  construct cls values kw counter = Ok (f, counter') →
  Field.cls f = cls
  ∧ Field.creation_counter f = counter
  ∧ counter' = S counter
  ∧ match cls with
    | StaticField static_value => Field.length f = Some (List.length static_value)
    | ShortDateField => Field.length f = Some 6%nat
    | DateField => Field.length f = Some 8%nat
    | CurrencyField => Field.length f = Some 3%nat
    | StringField => Field.values f = None
    | IntegerField => Field.values f = values
    end.
Proof.
  destruct cls; cbn; intros [-> ->]%FieldBase_init_Ok; done.
Qed.

(** A text field of fixed length [n]: the empty text for an empty value
    when blanks are allowed, a text of [n] characters otherwise. *)
Lemma StringField_process_fixed f n v t :
  Field.length f = Some n → n ≠ 0%nat →
  StringField_process f v = Ok t →
  t = [] ∧ Field.blank f = true ∧ truthy v = false ∨ List.length t = n.
Proof.
  intros Hlen Hn [-> [[Hv Hb] | [Hfix _]]]%StringField_process_Ok.
  - left. by rewrite (str_or_empty_falsy _ Hv).
  - right. rewrite replace_char_length, Hlen in *.
    destruct n; [done|]. specialize (Hfix eq_refl). congruence.
Qed.






(** An integer field of fixed length 3 returns the four characters of
    1000: the rendering is padded, never checked against the length. *)
Example IntegerField_fixed_length_overflow :
  (p ← IntegerField_init None (kw_length 3) 0; process p.1 (VInt 1000)) = Ok (u "1000").
Proof. reflexivity. Qed.

(** ** Row output *)

Section Output.
Variable nfkc : pystr → pystr.

Lemma RowBase_init_values_from (kwargs : gmap string PyVal)
    (fields : list (string * loc)) (vs : gmap string PyVal) (name : string) :
  name ∈ fields.*1 ∨ vs !! name = Some (default VNone (kwargs !! name)) →
  foldl (fun vs '(field_name, _) =>
           <[field_name := default VNone (kwargs !! field_name)]> vs) vs fields
    !! name
  = Some (default VNone (kwargs !! name)).
Proof.
  revert vs. induction fields as [|[name0 l0] fields IH]; intros vs Hname.
  - destruct Hname as [Hin|Hvs]; [by apply elem_of_nil in Hin | done].
  - cbn [foldl]. apply IH.
    destruct (decide (name = name0)) as [->|Hne].
    + right. apply lookup_insert_eq.
    + destruct Hname as [Hin|Hvs].
      * left. cbn in Hin. apply elem_of_cons in Hin as [?|?]; [done|done].
      * right. by rewrite lookup_insert_ne.
Qed.

Lemma RowBase_init_values cls kwargs entry :
  entry ∈ base_fields cls →
  values (RowBase_init cls kwargs) !! entry.1
  = Some (default VNone (kwargs !! entry.1)).
Proof.
  intros Hin. apply RowBase_init_values_from. left.
  apply list_elem_of_fmap. by exists entry.
Qed.

(** When every field processes, the generator yields the encoded text
    of each, in the order of the fields. *)
Lemma encoded_fields_Ok w cs kwargs vs fields texts :
  (∀ entry, entry ∈ fields → vs !! entry.1 = Some (default VNone (kwargs !! entry.1))) →
  Forall2 (processed w kwargs) fields texts →
  (encoded_fields nfkc (heap w) cs vs fields).1
  = Ok (zip_with (encoded nfkc cs) fields texts).
Proof.
  intros Hvs Hall. induction Hall as [|[name l] text fields texts Hp Hall IH]; [done|].
  destruct Hp as (field & Hfield & Hp). cbn in Hfield, Hp.
  cbn [encoded_fields zip_with].
  pose proof (Hvs (name, l) (proj2 (elem_of_cons _ _ _) (or_introl eq_refl))) as Hv.
  cbn [fst] in Hv. rewrite Hv, Hfield, Hp.
  unfold encoded at 1. cbn [fst].
  destruct (normalize_and_encode nfkc cs text (Some name)) as [bs logged].
  specialize (IH (fun entry Hin => Hvs entry (proj2 (elem_of_cons _ _ _) (or_intror Hin)))).
  destruct (encoded_fields nfkc (heap w) cs vs fields) as [r logged'].
  cbn [fst] in IH |- *. by rewrite IH.
Qed.

(** When every field of a row processes, the output of the row is the
    encoded texts of its fields, in the order of [base_fields], joined
    by the separator of the class, with the separator once more at the
    end. *)
Lemma RowBase_output_parts w cls kwargs texts :
  Forall2 (processed w kwargs) (base_fields cls) texts →
  (RowBase_output nfkc w cls (RowBase_init cls kwargs)).1
  = Ok (bytes_join (separator cls)
          (zip_with (encoded nfkc (charset cls)) (base_fields cls) texts)
        ++ separator cls).
Proof.
  intros Hall. unfold RowBase_output.
  pose proof (encoded_fields_Ok w (charset cls) kwargs
                (values (RowBase_init cls kwargs)) (base_fields cls) texts
                (RowBase_init_values cls kwargs) Hall) as Hparts.
  change (fields (RowBase_init cls kwargs)) with (base_fields cls).
  destruct (encoded_fields nfkc (heap w) (charset cls) _ (base_fields cls))
    as [r logged].
  cbn [fst] in Hparts |- *. by rewrite Hparts.
Qed.

End Output.

(** ** The default table and the delimiter *)

Lemma dict_update_lookup (d : charset_t) pairs k v :
  dict_update d pairs !! k = Some v → (k, v) ∈ pairs ∨ d !! k = Some v.
Proof.
  unfold dict_update. revert d.
  induction pairs as [|[k0 v0] pairs IH]; intros d; cbn [foldl]; [by right|].
  intros [Hin|Hd]%IH.
  - left. by right.
  - cbn [fst snd] in Hd. destruct (decide (k0 = k)) as [->|Hne].
    + rewrite lookup_insert_eq in Hd. injection Hd as ->. left. by left.
    + rewrite lookup_insert_ne in Hd by done. by right.
Qed.

Lemma dict_update_lookup_None (d : charset_t) pairs k :
  k ∉ pairs.*1 → d !! k = None → dict_update d pairs !! k = None.
Proof.
  intros Hk Hd. destruct (dict_update d pairs !! k) as [v|] eqn:E; [|done].
  apply dict_update_lookup in E as [Hin|E]; [|congruence].
  exfalso. apply Hk. apply list_elem_of_fmap. by exists (k, v).
Qed.

(** Every entry of the default table is one byte, and none is the byte
    of the semicolon. *)
Lemma charset_translations_entry c bs :
  charset_translations !! c = Some bs → List.length bs = 1%nat ∧ x3b ∉ bs.
Proof.
  intros H. assert (Hin : (c, bs) ∈ custom_characters ++ ascii_pairs).
  { apply elem_of_app. unfold charset_translations in H.
    apply dict_update_lookup in H as [?|H]; [by left|].
    apply dict_update_lookup in H as [?|H]; [by right|].
    by rewrite lookup_empty in H. }
  assert (Hall : Forall (fun kv : N * bytes => List.length kv.2 = 1%nat ∧ x3b ∉ kv.2)
                        (custom_characters ++ ascii_pairs)).
  { compute_done. }
  rewrite Forall_forall in Hall. exact (Hall _ Hin).
Qed.

Lemma charset_translations_semicolon : charset_translations !! 59%N = None.
Proof.
  unfold charset_translations.
  apply dict_update_lookup_None; [|apply dict_update_lookup_None; [|apply lookup_empty]];
    compute_done.
Qed.

Lemma elem_of_encoded (cs : charset_t) (s : pystr) (x : byte) :
  x ∈ mjoin (omap (fun c => cs !! c) s) → ∃ c bs, cs !! c = Some bs ∧ x ∈ bs.
Proof.
  intros (bs & Hx & Hbs)%list_elem_of_join.
  apply list_elem_of_omap in Hbs as (c & _ & Hc). by exists c, bs.
Qed.

(** The number of separators in a joined row. *)
Lemma count_occ_bytes_join (sep : byte) (parts : list bytes) :
  Forall (fun p => sep ∉ p) parts →
  count_occ byte_eq_dec (bytes_join [sep] parts ++ [sep]) sep
  = (1 `max` List.length parts)%nat.
Proof.
  intros Hall. rewrite count_occ_app. cbn [count_occ].
  destruct (byte_eq_dec sep sep) as [_|]; [|done].
  induction Hall as [|p parts Hp Hall IH]; [done|].
  assert (Hp0 : count_occ byte_eq_dec p sep = 0%nat).
  { apply count_occ_not_In. by rewrite <- list_elem_of_In. }
  destruct parts as [|q parts].
  - cbn [bytes_join List.length]. lia.
  - change (bytes_join [sep] (p :: q :: parts))
      with (p ++ [sep] ++ bytes_join [sep] (q :: parts)).
    rewrite !count_occ_app. cbn [count_occ].
    destruct (byte_eq_dec sep sep) as [_|]; [|done].
    cbn [List.length] in IH |- *. lia.
Qed.

Section Delimiter.
Variable nfkc : pystr → pystr.

Lemma default_encoding_no_semicolon text field_name :
  x3b ∉ (normalize_and_encode nfkc charset_translations text field_name).1.
Proof.
  rewrite normalize_and_encode_bytes.
  intros (c & bs & Hc & Hx)%elem_of_encoded.
  by apply charset_translations_entry in Hc as [_ Hc].
Qed.

(** When the generator succeeds it yields one part per field, each the
    encoding of some text. *)
Lemma encoded_fields_parts h cs vs fields parts :
  (encoded_fields nfkc h cs vs fields).1 = Ok parts →
  List.length parts = List.length fields
  ∧ Forall (fun p => ∃ text field_name,
                       p = (normalize_and_encode nfkc cs text field_name).1) parts.
Proof.
  revert parts. induction fields as [|[name l] fields IH]; intros parts.
  - cbn. by intros [= <-].
  - cbn [encoded_fields].
    destruct (vs !! name) as [value|]; [|discriminate].
    destruct (h !! l) as [field|]; [|discriminate].
    destruct (process field value) as [text|]; [|discriminate].
    destruct (normalize_and_encode nfkc cs text (Some name)) as [bs logged] eqn:E.
    destruct (encoded_fields nfkc h cs vs fields) as [[ps|] logged']; [|discriminate].
    cbn. intros [= <-]. destruct (IH ps eq_refl) as [Hlen Hall].
    split; [cbn; by rewrite Hlen|].
    constructor; [|done]. exists text, (Some name).
    apply (f_equal fst) in E. symmetry. exact E.
Qed.

(** C10: the semicolon has no entry in the default table; the bytes the
    encoder produces with that table never include [0x3B]; and the
    output of a row with the default separator and the default table
    holds exactly one [0x3B] per field (one in all for a row without
    fields), whatever the values. *)
Theorem default_charset_keeps_delimiters :
  charset_translations !! 59%N = None
  ∧ (∀ text field_name,
       x3b ∉ (normalize_and_encode nfkc charset_translations text field_name).1)
  ∧ (∀ w cls kwargs output,
       separator cls = [x3b] →
       charset cls = charset_translations →
       (RowBase_output nfkc w cls (RowBase_init cls kwargs)).1 = Ok output →
       count_occ byte_eq_dec output x3b = (1 `max` List.length (base_fields cls))%nat).
Proof.
  split; [apply charset_translations_semicolon|].
  split; [apply default_encoding_no_semicolon|].
  intros w cls kwargs output Hsep Hcs. unfold RowBase_output.
  change (fields (RowBase_init cls kwargs)) with (base_fields cls).
  destruct (encoded_fields nfkc (heap w) (charset cls) _ (base_fields cls))
    as [[parts|] logged] eqn:E; [|discriminate].
  cbn. intros [= <-].
  pose proof (encoded_fields_parts _ _ _ _ parts (f_equal fst E)) as [Hlen Hall].
  rewrite Hsep, <- Hlen. apply count_occ_bytes_join.
  eapply Forall_impl; [exact Hall|].
  intros p (text & field_name & ->). rewrite Hcs.
  apply default_encoding_no_semicolon.
Qed.

End Delimiter.

Lemma default_charset_keeps_delimiters_witness :
  (RowBase_output (fun s => s) TranslationRow.2 TranslationRow.1
     (RowBase_init TranslationRow.1
        (list_to_map [("a", VStr [252%N]); ("b", VStr [223%N])]))).1
  = Ok [x81; x3b; xe1; x3b]
  ∧ count_occ byte_eq_dec [x81; x3b; xe1; x3b] x3b = 2%nat.
Proof.
  assert (H : (RowBase_output (fun s => s) TranslationRow.2 TranslationRow.1
                 (RowBase_init TranslationRow.1
                    (list_to_map [("a", VStr [252%N]); ("b", VStr [223%N])]))).1
              = Ok [x81; x3b; xe1; x3b]).
  { vm_compute. reflexivity. }
  split; [exact H|].
  exact (proj2 (proj2 (default_charset_keeps_delimiters (fun s => s)))
           TranslationRow.2 TranslationRow.1 _ _ eq_refl eq_refl H).
Defined.

(** ** The header row *)

Lemma StaticField_process_Ok static_value v t :
  StaticField_process static_value v = Ok t → t = static_value.
Proof. unfold StaticField_process. destruct (_ && _); [discriminate|]. by intros [= <-]. Qed.

(** A field other than an integer field, of fixed length [n] and
    without blanks, returns [n] characters when it returns. *)
Lemma process_fixed_nonblank f n v t :
  match Field.cls f with
  | IntegerField => False
  | StaticField static_value => List.length static_value = n
  | _ => Field.length f = Some n ∧ n ≠ 0%nat ∧ Field.blank f = false
  end →
  process f v = Ok t →
  List.length t = n.
Proof.
  unfold process.
  assert (Hstr : Field.length f = Some n ∧ n ≠ 0%nat ∧ Field.blank f = false →
                 ∀ v, StringField_process f v = Ok t → List.length t = n).
  { intros (Hlen & Hn & Hb) v' Hp.
    apply (StringField_process_fixed f n) in Hp as [(_ & Hb' & _)|Hp]; [congruence|done..]. }
  destruct (Field.cls f); intros Hf; try (by apply Hstr); try done.
  - unfold ShortDateField_process. destruct (_ && _) eqn:Hblank.
    { destruct Hf as (_ & _ & Hb). rewrite Hb, andb_false_r in Hblank. done. }
    destruct v; try discriminate. by apply Hstr.
  - unfold DateField_process. destruct (_ && _) eqn:Hblank.
    { destruct Hf as (_ & _ & Hb). rewrite Hb, andb_false_r in Hblank. done. }
    destruct v; try discriminate. by apply Hstr.
  - intros ->%StaticField_process_Ok. done.
Qed.

Section Header.
Variable nfkc : pystr → pystr.
Hypothesis nfkc_inert : NFKC_inert nfkc.

(** On a text of inert characters the encoder does what it does
    without normalisation. *)
Lemma encoded_inert cs entry text :
  Forall inert_char text →
  encoded nfkc cs entry text = encoded (fun s => s) cs entry text.
Proof.
  intros Htext. unfold encoded, normalize_and_encode. cbn [fst].
  by rewrite (nfkc_inert text Htext).
Qed.

(** A text of characters of the default table is encoded one byte for
    each character. *)
Lemma encoded_table_text_length entry text :
  Forall (fun c => is_Some (charset_translations !! c)) text →
  List.length (encoded nfkc charset_translations entry text) = List.length text.
Proof.
  intros Htext. rewrite encoded_inert.
  2: { eapply Forall_impl; [exact Htext|]. intros c Hc. by right. }
  unfold encoded. rewrite normalize_and_encode_bytes.
  induction Htext as [|c text [bs Hc] Htext IH]; [done|].
  change (omap (fun x => charset_translations !! x) (c :: text))
    with (match charset_translations !! c with
          | Some bs => bs :: omap (fun x => charset_translations !! x) text
          | None => omap (fun x => charset_translations !! x) text
          end).
  rewrite Hc, mjoin_cons, length_app, IH.
  apply charset_translations_entry in Hc as [-> _]. done.
Qed.

Lemma bytes_join_empty_sep parts : bytes_join [] parts = mjoin parts.
Proof.
  induction parts as [|p parts IH]; [done|].
  destruct parts as [|q parts]; [by rewrite mjoin_cons, app_nil_r|].
  change (bytes_join [] (p :: q :: parts)) with (p ++ [] ++ bytes_join [] (q :: parts)).
  by rewrite IH.
Qed.

(** The output of a header row whose fields process to [texts]. *)
Lemma VorlaufZeile_output_parts kwargs texts :
  Forall2 (processed W kwargs) (base_fields (VorlaufZeile rows)) texts →
  (VorlaufZeile_output nfkc W (VorlaufZeile rows)
     (RowBase_init (VorlaufZeile rows) kwargs)).1
  = let output :=
      mjoin (zip_with (encoded nfkc charset_translations)
               (base_fields (VorlaufZeile rows)) texts) in
    if bool_decide (List.length output = 128%nat) then Ok output
    else Raise AssertionError.
Proof.
  intros Hall. unfold VorlaufZeile_output, RowBase_output.
  pose proof (encoded_fields_Ok nfkc W charset_translations kwargs
                (values (RowBase_init (VorlaufZeile rows) kwargs))
                (base_fields (VorlaufZeile rows)) texts
                (RowBase_init_values (VorlaufZeile rows) kwargs) Hall) as Hparts.
  change (fields (RowBase_init (VorlaufZeile rows) kwargs))
    with (base_fields (VorlaufZeile rows)).
  change (charset (VorlaufZeile rows)) with charset_translations.
  change (separator (VorlaufZeile rows)) with (@nil byte).
  destruct (encoded_fields nfkc (heap W) charset_translations _ _) as [r logged].
  cbn [fst] in Hparts. rewrite Hparts. cbn [fst mbind result_bind].
  by rewrite bytes_join_empty_sep, app_nil_r.
Qed.

End Header.

(** X23: when the fields of a header row validate and the texts they
    return hold only characters of the default table, the output
    succeeds and is exactly 128 bytes long, so the assertion holds.
    (The normalisation is assumed to leave texts of ASCII and table
    characters alone.) *)
Theorem VorlaufZeile_output_128 nfkc kwargs texts :
  NFKC_inert nfkc →
  Forall2 (processed W kwargs) (base_fields (VorlaufZeile rows)) texts →
  Forall (Forall (fun c => is_Some (charset_translations !! c))) texts →
  ∃ output,
    (VorlaufZeile_output nfkc W (VorlaufZeile rows)
       (RowBase_init (VorlaufZeile rows) kwargs)).1 = Ok output
    ∧ List.length output = 128%nat.
Proof.
  intros Hinert Hall Htable.
  rewrite (VorlaufZeile_output_parts nfkc kwargs texts Hall). cbv zeta.
  assert (Hlen : List.length
                   (mjoin (zip_with (encoded nfkc charset_translations)
                             (base_fields (VorlaufZeile rows)) texts)) = 128%nat).
  { change (base_fields (VorlaufZeile rows))
      with [ ("satzartenkennzeichen", 0%nat); ("dummy", 1%nat);
             ("erstellungsdatum", 2%nat); ("informationstext1", 3%nat);
             ("informationstext2", 4%nat); ("informationstext3", 5%nat);
             ("version", 6%nat); ("waehrungskennzeichen", 7%nat) ] in Hall |- *.
    repeat match goal with
           | H : Forall2 _ (_ :: _) _ |- _ =>
               apply Forall2_cons_inv_l in H as (? & ? & ? & H & ->)
           | H : Forall2 _ [] _ |- _ => apply Forall2_nil_inv_l in H as ->
           end.
    repeat match goal with
           | H : processed W kwargs _ _ |- _ =>
               let Hf := fresh "Hf" in
               destruct H as (? & Hf & H); vm_compute in Hf; injection Hf as <-;
               eapply process_fixed_nonblank in H; [|cbn; try done]
           end.
    repeat match goal with
           | H : Forall _ (_ :: _) |- _ => apply Forall_cons in H as [? H]
           end.
    cbn [zip_with]. rewrite !mjoin_cons, !length_app.
    rewrite !(encoded_table_text_length nfkc Hinert) by assumption.
    cbn [mjoin list_join List.length]. lia. }
  exists (mjoin (zip_with (encoded nfkc charset_translations)
                   (base_fields (VorlaufZeile rows)) texts)).
  by rewrite bool_decide_eq_true_2.
Qed.

Lemma identity_inert : NFKC_inert (fun s => s).
Proof. by intros s _. Qed.

Lemma VorlaufZeile_output_128_witness :
  NFKC_inert (fun s => s)
  ∧ Forall2 (processed W example_header) (base_fields (VorlaufZeile rows))
            example_header_texts
  ∧ Forall (Forall (fun c => is_Some (charset_translations !! c))) example_header_texts
  ∧ ∃ output,
      (VorlaufZeile_output (fun s => s) W (VorlaufZeile rows)
         (RowBase_init (VorlaufZeile rows) example_header)).1 = Ok output
      ∧ List.length output = 128%nat.
Proof.
  assert (H2 : Forall2 (processed W example_header) (base_fields (VorlaufZeile rows))
                 example_header_texts).
  { repeat constructor; eexists; (split; [reflexivity|]); vm_compute; reflexivity. }
  assert (H3 : Forall (Forall (fun c => is_Some (charset_translations !! c)))
                 example_header_texts).
  { compute_done. }
  split; [exact identity_inert|]. split; [exact H2|]. split; [exact H3|].
  exact (VorlaufZeile_output_128 (fun s => s) example_header example_header_texts
           identity_inert H2 H3).
Defined.

Lemma semicolon_header_validates :
  Forall2 (processed W semicolon_header) (base_fields (VorlaufZeile rows))
          semicolon_header_texts.
Proof.
  repeat constructor; eexists; (split; [reflexivity|]); vm_compute; reflexivity.
Qed.

(** With forty semicolons as first information text every field
    validates, the semicolons have no entry in the table and are left
    out, and the assertion fails on the 88 bytes that remain. *)
Lemma semicolon_header_asserts nfkc :
  NFKC_inert nfkc →
  (VorlaufZeile_output nfkc W (VorlaufZeile rows)
     (RowBase_init (VorlaufZeile rows) semicolon_header)).1 = Raise AssertionError.
Proof.
  intros Hinert.
  rewrite (VorlaufZeile_output_parts nfkc _ _ semicolon_header_validates). cbv zeta.
  change (base_fields (VorlaufZeile rows))
    with [ ("satzartenkennzeichen", 0%nat); ("dummy", 1%nat);
           ("erstellungsdatum", 2%nat); ("informationstext1", 3%nat);
           ("informationstext2", 4%nat); ("informationstext3", 5%nat);
           ("version", 6%nat); ("waehrungskennzeichen", 7%nat) ].
  unfold semicolon_header_texts. cbn [zip_with].
  rewrite !(encoded_inert nfkc Hinert) by compute_done.
  vm_compute. reflexivity.
Qed.

(** So the header row is not always 128 bytes long, under any
    normalisation that leaves ASCII text alone. *)
Lemma VorlaufZeile_assertion_reachable :
  ¬ ∃ nfkc, NFKC_inert nfkc ∧ header_always_128 nfkc.
Proof.
  intros (nfkc & Hinert & Hclaim).
  destruct (Hclaim semicolon_header semicolon_header_texts semicolon_header_validates)
    as (output & Hout & _).
  rewrite (semicolon_header_asserts nfkc Hinert) in Hout. discriminate.
Qed.

(** C4 fails on the code: the header [semicolon_header], whose first
    information text is forty semicolons, passes the validation of
    every field (the texts have the fixed lengths), and the output of
    the header row raises the [AssertionError] of the length check all
    the same: the encoder leaves the semicolons out, for want of a table
    entry, and 88 bytes remain. *)
Theorem VorlaufZeile_asserts_on_validated_header nfkc :
  NFKC_inert nfkc →
  Forall2 (processed W semicolon_header) (base_fields (VorlaufZeile rows))
          semicolon_header_texts
  ∧ (∃ output,
       (RowBase_output nfkc W (VorlaufZeile rows)
          (RowBase_init (VorlaufZeile rows) semicolon_header)).1 = Ok output
       ∧ List.length output = 88%nat)
  ∧ (VorlaufZeile_output nfkc W (VorlaufZeile rows)
       (RowBase_init (VorlaufZeile rows) semicolon_header)).1 = Raise AssertionError.
Proof.
  intros Hinert. split; [exact semicolon_header_validates|].
  split; [|by apply semicolon_header_asserts].
  rewrite (RowBase_output_parts nfkc _ _ _ _ semicolon_header_validates).
  eexists. split; [reflexivity|].
  change (base_fields (VorlaufZeile rows))
    with [ ("satzartenkennzeichen", 0%nat); ("dummy", 1%nat);
           ("erstellungsdatum", 2%nat); ("informationstext1", 3%nat);
           ("informationstext2", 4%nat); ("informationstext3", 5%nat);
           ("version", 6%nat); ("waehrungskennzeichen", 7%nat) ].
  unfold semicolon_header_texts. cbn [zip_with].
  rewrite !(encoded_inert nfkc Hinert) by compute_done.
  vm_compute. reflexivity.
Qed.

Lemma VorlaufZeile_asserts_on_validated_header_witness :
  NFKC_inert (fun s => s)
  ∧ (VorlaufZeile_output (fun s => s) W (VorlaufZeile rows)
       (RowBase_init (VorlaufZeile rows) semicolon_header)).1 = Raise AssertionError.
Proof.
  split; [exact identity_inert|].
  exact (proj2 (proj2 (VorlaufZeile_asserts_on_validated_header (fun s => s)
                         identity_inert))).
Defined.

(** ** The text chunker *)

Lemma rfind_from_spec i found s sub :
  let r := rfind_from i found s sub in
  r = found
  ∨ i ≤ r ≤ i + len s ∧ sub `prefix_of` drop (Z.to_nat (r - i)) s.
Proof.
  cbv zeta. revert i found. induction s as [|c s IH]; intros i found.
  - cbn [rfind_from]. case_bool_decide as Hp; [|by left].
    right. unfold len. cbn [List.length]. split; [lia|].
    by replace (i - i) with 0 by lia.
  - cbn [rfind_from].
    destruct (IH (i + 1)
                (if bool_decide (sub `prefix_of` c :: s) then i else found))
      as [-> | [Hr Hp]].
    + case_bool_decide as Hp; [|by left].
      right. unfold len. split; [lia|]. by replace (i - i) with 0 by lia.
    + right. unfold len in *. cbn [List.length]. split; [lia|].
      replace (Z.to_nat (rfind_from (i + 1)
                 (if bool_decide (sub `prefix_of` c :: s) then i else found) s sub - i))
        with (S (Z.to_nat (rfind_from (i + 1)
                 (if bool_decide (sub `prefix_of` c :: s) then i else found) s sub
                 - (i + 1)))) by lia.
      exact Hp.
Qed.

Lemma rfind_spec s sub :
  rfind s sub = -1
  ∨ 0 ≤ rfind s sub ≤ len s ∧ sub `prefix_of` drop (Z.to_nat (rfind s sub)) s.
Proof.
  unfold rfind. destruct (rfind_from_spec 0 (-1) s sub) as [H | [H1 H2]]; [by left|].
  right. split; [lia|]. by rewrite Z.sub_0_r in H2.
Qed.

Lemma slice_to_length s k : 0 ≤ k → len (slice_to s k) ≤ k.
Proof.
  intros Hk. unfold len, slice_to, slice_index.
  destruct (k <? 0) eqn:E; [lia|]. rewrite length_take. lia.
Qed.

(** The cut position of an iteration is between 0 and the width. *)
Lemma separate_at_bounds line chunk_size split_char :
  0 ≤ chunk_size →
  let separate_at := rfind (slice_to line chunk_size) split_char in
  0 ≤ (if separate_at =? -1 then chunk_size else separate_at) ≤ chunk_size.
Proof.
  intros Hk. cbv zeta.
  pose proof (slice_to_length line chunk_size Hk) as Hlen.
  destruct (rfind_spec (slice_to line chunk_size) split_char) as [-> | [Hr _]].
  - cbn. lia.
  - destruct (_ =? -1); lia.
Qed.

Lemma chunk_line_fits fuel chunk_size split_char line chunks :
  0 ≤ chunk_size →
  Forall (fits chunk_size) chunks →
  Forall (fits chunk_size) (chunk_line fuel chunk_size split_char line chunks).1.
Proof.
  intros Hk. revert line chunks.
  induction fuel as [|fuel IH]; intros line chunks Hchunks; [done|].
  cbn [chunk_line]. destruct (chunk_size <? len (strip line)) eqn:Hlong.
  - apply IH. apply Forall_app. split; [done|]. constructor; [|done].
    pose proof (separate_at_bounds (strip line) chunk_size split_char Hk) as Hsep.
    cbv zeta in Hsep. unfold fits.
    pose proof (slice_to_length (strip line) _ (proj1 Hsep)). lia.
  - cbn [fst]. apply Forall_app. split; [done|]. constructor; [|done].
    unfold fits. lia.
Qed.

Lemma chunk_lines_fits fuel chunk_size split_char lines chunks :
  0 ≤ chunk_size →
  Forall (fits chunk_size) chunks →
  Forall (fits chunk_size) (chunk_lines fuel chunk_size split_char lines chunks).1.
Proof.
  intros Hk. revert chunks.
  induction lines as [|line lines IH]; intros chunks Hchunks; [done|].
  cbn [chunk_lines].
  pose proof (chunk_line_fits fuel chunk_size split_char line chunks Hk Hchunks) as H.
  destruct (chunk_line fuel chunk_size split_char line chunks) as [chunks' [|]].
  - by apply IH.
  - exact H.
Qed.

Lemma lstrip_suffix s : ∃ ws, s = ws ++ lstrip s.
Proof.
  induction s as [|c s [ws IH]]; [by exists []|].
  cbn [lstrip]. destruct (is_space c).
  - exists (c :: ws). cbn. by f_equal.
  - by exists [].
Qed.

Lemma lstrip_head s c rest : lstrip s = c :: rest → is_space c = false.
Proof.
  induction s as [|c0 s IH]; [done|].
  cbn [lstrip]. destruct (is_space c0) eqn:E; [done|]. by intros [= <- _].
Qed.

Lemma rstrip_prefix s : ∃ ws, s = rstrip s ++ ws.
Proof.
  unfold rstrip. destruct (lstrip_suffix (reverse s)) as [ws Hws].
  exists (reverse ws). rewrite <- reverse_app, <- Hws. by rewrite reverse_involutive.
Qed.

Lemma strip_head s c rest : strip s = c :: rest → is_space c = false.
Proof.
  unfold strip. intros Hs.
  destruct (rstrip_prefix (lstrip s)) as [ws Hws]. rewrite Hs in Hws.
  by apply (lstrip_head s c (rest ++ ws)).
Qed.

Lemma strip_length s : (List.length (strip s) ≤ List.length s)%nat.
Proof.
  unfold strip.
  destruct (rstrip_prefix (lstrip s)) as [ws1 H1].
  destruct (lstrip_suffix s) as [ws2 H2].
  apply (f_equal List.length) in H1, H2. rewrite length_app in H1, H2. lia.
Qed.

(** With a separator that begins with whitespace, an iteration on a
    stripped line longer than the width cuts at 1 or later. *)
Lemma separate_at_progress line chunk_size split_char :
  1 ≤ chunk_size →
  space_led split_char →
  chunk_size < len (strip line) →
  let separate_at := rfind (slice_to (strip line) chunk_size) split_char in
  1 ≤ (if separate_at =? -1 then chunk_size else separate_at).
Proof.
  intros Hk (c & rest & -> & Hc) Hlong. cbv zeta.
  destruct (rfind_spec (slice_to (strip line) chunk_size) (c :: rest))
    as [-> | [Hr Hp]]; [cbn; lia|].
  destruct (_ =? -1) eqn:E; [lia|].
  destruct (decide (rfind (slice_to (strip line) chunk_size) (c :: rest) = 0))
    as [H0|]; [|lia].
  exfalso. rewrite H0 in Hp. cbn [Z.to_nat drop] in Hp.
  destruct Hp as [tail Hp]. unfold slice_to, slice_index in Hp.
  destruct (chunk_size <? 0) eqn:Hneg; [lia|].
  destruct (Z.to_nat chunk_size) as [|n] eqn:En; [lia|].
  destruct (strip line) as [|c' line'] eqn:Hs; [done|].
  cbn in Hp. injection Hp as -> _.
  apply strip_head in Hs. congruence.
Qed.

Lemma chunk_line_finishes fuel chunk_size split_char line chunks :
  1 ≤ chunk_size →
  space_led split_char →
  (List.length line < fuel)%nat →
  (chunk_line fuel chunk_size split_char line chunks).2 = true.
Proof.
  intros Hk Hsplit. revert line chunks.
  induction fuel as [|fuel IH]; intros line chunks Hfuel; [lia|].
  cbn [chunk_line]. destruct (chunk_size <? len (strip line)) eqn:Hlong; [|done].
  apply IH.
  pose proof (separate_at_progress line chunk_size split_char Hk Hsplit
                ltac:(lia)) as Hsep.
  cbv zeta in Hsep. pose proof (strip_length line) as Hstrip.
  unfold slice_from, slice_index.
  destruct (_ <? 0) eqn:Hneg; [lia|].
  rewrite length_drop. unfold len in Hlong. lia.
Qed.

Lemma chunk_lines_finishes fuel chunk_size split_char lines chunks :
  1 ≤ chunk_size →
  space_led split_char →
  Forall (fun line => (List.length line < fuel)%nat) lines →
  (chunk_lines fuel chunk_size split_char lines chunks).2 = true.
Proof.
  intros Hk Hsplit Hlines. revert chunks.
  induction Hlines as [|line lines Hline Hlines IH]; intros chunks; [done|].
  cbn [chunk_lines].
  pose proof (chunk_line_finishes fuel chunk_size split_char line chunks
                Hk Hsplit Hline) as H.
  destruct (chunk_line fuel chunk_size split_char line chunks) as [chunks' finished].
  cbn [snd] in H. rewrite H. apply IH.
Qed.

Section Chunker.
Variable nfkc : pystr → pystr.

(** With a separator that begins with whitespace, [chunk_text]
    returns, after at most as many iterations a line as the longest
    line has characters, plus one. *)
Lemma chunk_text_returns text chunk_size split_char :
  1 ≤ chunk_size →
  space_led split_char →
  ∃ fuel chunks, chunk_text nfkc fuel text chunk_size split_char = Some chunks.
Proof.
  intros Hk Hsplit.
  exists (S (max_list (List.length <$> splitlines (nfkc text)))).
  unfold chunk_text, chunk_text_run.
  pose proof (chunk_lines_finishes
                (S (max_list (List.length <$> splitlines (nfkc text))))
                chunk_size split_char (splitlines (nfkc text)) [] Hk Hsplit) as H.
  destruct (chunk_lines _ chunk_size split_char (splitlines (nfkc text)) [])
    as [chunks finished].
  cbn [snd] in H. rewrite H; [by exists chunks|].
  apply Forall_forall. intros line Hline.
  apply Nat.lt_succ_r, max_list_elem_of_le, list_elem_of_fmap. by exists line.
Qed.

(** C7: for a width of at least 1 and any separator, every chunk the
    chunker has emitted after any number of iterations is at most as
    long as the width, hence so is every chunk of a list it returns;
    and with a separator that begins with whitespace, as the default
    does, it does return. *)
Theorem chunk_text_width text chunk_size split_char :
  1 ≤ chunk_size →
  (∀ fuel,
     Forall (fits chunk_size) (chunk_text_run nfkc fuel text chunk_size split_char).1)
  ∧ (∀ fuel chunks,
       chunk_text nfkc fuel text chunk_size split_char = Some chunks →
       Forall (fits chunk_size) chunks)
  ∧ (space_led split_char →
     ∃ fuel chunks,
       chunk_text nfkc fuel text chunk_size split_char = Some chunks
       ∧ Forall (fits chunk_size) chunks).
Proof.
  intros Hk.
  assert (Hrun : ∀ fuel,
            Forall (fits chunk_size)
              (chunk_text_run nfkc fuel text chunk_size split_char).1).
  { intros fuel. unfold chunk_text_run. apply chunk_lines_fits; [lia|done]. }
  assert (Hret : ∀ fuel chunks,
            chunk_text nfkc fuel text chunk_size split_char = Some chunks →
            Forall (fits chunk_size) chunks).
  { intros fuel chunks. unfold chunk_text. specialize (Hrun fuel).
    destruct (chunk_text_run nfkc fuel text chunk_size split_char)
      as [chunks' [|]]; [|discriminate].
    by intros [= <-]. }
  split; [exact Hrun|]. split; [exact Hret|].
  intros Hsplit.
  destruct (chunk_text_returns text chunk_size split_char Hk Hsplit)
    as (fuel & chunks & H).
  exists fuel, chunks. split; [exact H|]. by apply (Hret fuel).
Qed.

End Chunker.

Lemma chunk_text_width_witness :
  1 ≤ 5
  ∧ chunk_text (fun s => s) 10 (u "ABC DEF GHI JKL MNO QRS") 5 (u " ")
    = Some [u "ABC"; u "DEF"; u "GHI"; u "JKL"; u "MNO"; u "QRS"]
  ∧ Forall (fits 5) [u "ABC"; u "DEF"; u "GHI"; u "JKL"; u "MNO"; u "QRS"].
Proof.
  split; [lia|]. split; [reflexivity|].
  exact (proj1 (proj2 (chunk_text_width (fun s => s)
                         (u "ABC DEF GHI JKL MNO QRS") 5 (u " ") ltac:(lia)))
           10%nat _ eq_refl).
Defined.

(** A separator that is not whitespace can stop the chunker for good:
    when the stripped line begins with its only occurrence within the
    width, the cut is at 0, an empty chunk is emitted and the line is
    unchanged.  No number of iterations makes [chunk_text] return. *)
Lemma chunk_line_comma_loops fuel chunks :
  (chunk_line fuel 5 (u ",") (u ",ABCDEFG") chunks).2 = false.
Proof.
  revert chunks. induction fuel as [|fuel IH]; intros chunks; [done|].
  change (chunk_line (S fuel) 5 (u ",") (u ",ABCDEFG") chunks)
    with (chunk_line fuel 5 (u ",") (u ",ABCDEFG") (chunks ++ [[]])).
  apply IH.
Qed.

(** ** Registration of fields without explicit names *)

Lemma insert_by_perm {A} (key : A → nat) x l : insert_by key x l ≡ₚ x :: l.
Proof.
  induction l as [|y l IH]; [done|].
  cbn [insert_by]. case_bool_decide; [done|].
  rewrite IH. apply Permutation_swap.
Qed.

Lemma sorted_perm {A} (key : A → nat) l : sorted key l ≡ₚ l.
Proof.
  induction l as [|x l IH]; [done|].
  cbn [sorted foldr]. rewrite insert_by_perm. by constructor.
Qed.

Lemma insert_by_ordered {A} (key : A → nat) x l :
  ordered key l → ordered key (insert_by key x l).
Proof.
  induction l as [|y l IH]; [by repeat constructor|].
  intros [Hy Hl]. cbn [insert_by]. case_bool_decide as Hxy.
  - cbn [ordered]. repeat split; [|done..].
    constructor; [done|]. eapply Forall_impl; [exact Hy|]. cbn. lia.
  - cbn [ordered]. split; [|by apply IH].
    rewrite insert_by_perm. constructor; [lia|done].
Qed.

Lemma sorted_ordered {A} (key : A → nat) l : ordered key (sorted key l).
Proof.
  induction l as [|x l IH]; [done|]. cbn [sorted foldr]. by apply insert_by_ordered.
Qed.

Lemma sorted_of_ordered {A} (key : A → nat) l : ordered key l → sorted key l = l.
Proof.
  induction l as [|x l IH]; [done|].
  intros [Hx Hl]. cbn [sorted foldr]. fold (sorted key l). rewrite (IH Hl).
  destruct l as [|y l]; [done|].
  cbn [insert_by]. apply Forall_cons in Hx as [Hxy _].
  by rewrite bool_decide_eq_true_2.
Qed.

Lemma ordered_ext {A} (key1 key2 : A → nat) l :
  (∀ x, key1 x = key2 x) → ordered key1 l → ordered key2 l.
Proof.
  intros Hkey. induction l as [|x l IH]; [done|].
  intros [Hx Hl]. split; [|by apply IH].
  eapply Forall_impl; [exact Hx|]. intros y. cbn. by rewrite !Hkey.
Qed.

Lemma register_field_lookup_ne index field_name l h l' :
  l ≠ l' → register_field index field_name l h !! l' = h !! l'.
Proof.
  intros Hne. unfold register_field.
  destruct (h !! l) as [field|]; [|done]. by rewrite list_lookup_insert_ne.
Qed.


(** Registration leaves the creation counters alone. *)
Lemma register_field_counter index field_name l h x :
  counter_of (register_field index field_name l h) x = counter_of h x.
Proof.
  unfold counter_of. destruct (decide (l = x.2)) as [<-|Hne].
  - unfold register_field. destruct (h !! l) as [field|] eqn:Hl; [|by rewrite Hl].
    rewrite list_lookup_insert_eq by (by eapply lookup_lt_Some).
    by destruct (Field.name field).
  - by rewrite register_field_lookup_ne.
Qed.

Lemma register_fields_counter index fields h x :
  counter_of (register_fields index fields h) x = counter_of h x.
Proof.
  revert index h. induction fields as [|[name l] fields IH]; intros index h; [done|].
  cbn [register_fields]. by rewrite IH, register_field_counter.
Qed.





(** ** The order of the fields in the output *)






(** The ordinals follow the order of the output in the class of
    [test_separator]: the field of [a] has ordinal 0, that of [b]
    ordinal 1. *)
Example SeparatorRow_ordinals :
  base_fields SeparatorRow.1 = [("a", 0%nat); ("b", 1%nat)]
  ∧ Field.index <$> heap SeparatorRow.2 = [Some 0%nat; Some 1%nat].
Proof. split; reflexivity. Qed.

(** ** Further properties of the chunker *)

(** X2: with the separator [","], the text [",ABCDEFG"] and width 5,
    [chunk_text] does not return, however many iterations it is
    given. *)
Theorem chunk_text_can_loop_forever (nfkc : pystr → pystr) :
  nfkc (u ",ABCDEFG") = u ",ABCDEFG" →
  ∀ fuel, chunk_text nfkc fuel (u ",ABCDEFG") 5 (u ",") = None.
Proof.
  intros Hnfkc fuel. unfold chunk_text, chunk_text_run. rewrite Hnfkc.
  change (splitlines (u ",ABCDEFG")) with [u ",ABCDEFG"]. cbn [chunk_lines].
  pose proof (chunk_line_comma_loops fuel []) as H.
  destruct (chunk_line fuel 5 (u ",") (u ",ABCDEFG") []) as [chunks finished].
  cbn [snd] in H. by rewrite H.
Qed.

Lemma chunk_text_can_loop_forever_witness :
  chunk_text (fun s => s) 1000 (u ",ABCDEFG") 5 (u ",") = None.
Proof. exact (chunk_text_can_loop_forever (fun s => s) eq_refl 1000%nat). Defined.

(** ** Fields with a maximum length *)

(** A constructed field whose [length] and [max_length] are both set
    has them equal. *)
Lemma construct_lengths cls values kw counter f counter' n m :
  construct cls values kw counter = Ok (f, counter') →
  Field.length f = Some n → n ≠ 0%nat →
  Field.max_length f = Some m → m ≠ 0%nat →
  n = m.
Proof.
  assert (H : ∀ c vs kw', FieldBase_init c vs kw' counter = Ok (f, counter') →
              Field.length f = Some n → n ≠ 0%nat →
              Field.max_length f = Some m → m ≠ 0%nat → n = m).
  { intros c vs kw'. unfold FieldBase_init.
    destruct (is_set (Kw.length kw') && is_set (Kw.max_length kw')
              && negb (bool_decide (Kw.length kw' = Kw.max_length kw'))) eqn:E;
      [discriminate|].
    intros [= <- _]. cbn. intros Hn Hn0 Hm Hm0. rewrite Hn, Hm in E.
    destruct n; [done|]. destruct m; [done|]. cbn in E.
    apply negb_false_iff, bool_decide_eq_true in E. congruence. }
  destruct cls; cbn; apply H.
Qed.

(** X3: a constructed field with [max_length = m], [m] at least 1,
    never returns a text longer than [m], unless it is an integer
    field of fixed length. *)
Theorem max_length_process cls values kw counter f counter' m v t :
  construct cls values kw counter = Ok (f, counter') →
  Field.max_length f = Some m →
  m ≠ 0%nat →
  (cls = IntegerField → is_set (Field.length f) = false) →
  process f v = Ok t →
  (List.length t ≤ m)%nat.
Proof.
  intros Hc Hmax Hm Hint Hp.
  pose proof (construct_Ok _ _ _ _ _ _ Hc) as (Hcls & _ & _ & Hshape).
  assert (Hstr : ∀ v', StringField_process f v' = Ok t → (List.length t ≤ m)%nat).
  { intros v' [-> [[Hv _] | [_ Hle]]]%StringField_process_Ok.
    - rewrite (str_or_empty_falsy _ Hv). cbn. lia.
    - rewrite replace_char_length. rewrite Hmax in Hle.
      destruct m; [done|]. exact (Hle eq_refl). }
  unfold process in Hp. rewrite Hcls in Hp.
  destruct cls as [| | | | |static_value].
  - by apply Hstr in Hp.
  - unfold IntegerField_process in Hp. rewrite (Hint eq_refl), Hmax in Hp.
    destruct (Field.blank f && bool_decide (v = VNone)).
    { injection Hp as <-. cbn. lia. }
    rewrite andb_false_r in Hp.
    destruct (not_permitted (Field.values f) v) as [[|]|]; cbn in Hp; try discriminate.
    destruct v as [|s|z|y mo d]; try discriminate.
    + injection Hp as <-. cbn. lia.
    + case_bool_decide; [discriminate|]. injection Hp as <-. lia.
  - unfold ShortDateField_process in Hp. destruct (_ && _).
    { injection Hp as <-. cbn. lia. }
    destruct v; try discriminate. by apply Hstr in Hp.
  - unfold DateField_process in Hp. destruct (_ && _).
    { injection Hp as <-. cbn. lia. }
    destruct v; try discriminate. by apply Hstr in Hp.
  - by apply Hstr in Hp.
  - apply StaticField_process_Ok in Hp as ->.
    destruct static_value as [|c rest]; [cbn; lia|].
    rewrite (construct_lengths _ _ _ _ _ _ (List.length (c :: rest)) m Hc Hshape); done.
Qed.

Lemma max_length_process_witness :
  (p ← StringField_init None (kw_max_length 5) 0; process p.1 (VStr (u "abcde")))
  = Ok (u "abcde")
  ∧ (List.length (u "abcde") ≤ 5)%nat.
Proof.
  split; [reflexivity|].
  exact (max_length_process StringField None (kw_max_length 5) 0
           (Field.mk StringField None 0 None (Some 5%nat) None false None false None)
           1%nat 5%nat (VStr (u "abcde")) (u "abcde")
           eq_refl eq_refl (fun H => O_S 4 (eq_sym H))
           (fun H => ltac:(discriminate H)) eq_refl).
Defined.

(** * Further properties *)

(** ** Decimal renderings *)

Lemma uint_codes_length d : List.length (uint_codes d) = Decimal.nb_digits d.
Proof. induction d; cbn; congruence. Qed.

Lemma uint_codes_digits d : Forall is_digit (uint_codes d).
Proof. induction d; cbn; constructor; try done; unfold is_digit; lia. Qed.

Lemma digits_are_digits n : Forall is_digit (digits n).
Proof. apply uint_codes_digits. Qed.

(** The value of a digit string read after the digits worth [acc]. *)
Lemma of_uint_acc_bounds d acc :
  (N.pos acc * 10 ^ N.of_nat (Decimal.nb_digits d)
   ≤ N.pos (Pos.of_uint_acc d acc)
   < (N.pos acc + 1) * 10 ^ N.of_nat (Decimal.nb_digits d))%N.
Proof.
  revert acc. induction d as [|d IH|d IH|d IH|d IH|d IH|d IH|d IH|d IH|d IH|d IH];
    intros acc; cbn [Pos.of_uint_acc Decimal.nb_digits];
    [cbn; lia|..];
    rewrite Nat2N.inj_succ, N.pow_succ_r';
    match goal with
    | |- context [Pos.of_uint_acc _ ?a] => specialize (IH a)
    end;
    set (p := (10 ^ N.of_nat (Decimal.nb_digits d))%N) in *; nia.
Qed.

Lemma of_uint_upper d : (Pos.of_uint d < 10 ^ N.of_nat (Decimal.nb_digits d))%N.
Proof.
  induction d as [|d IH|d IH|d IH|d IH|d IH|d IH|d IH|d IH|d IH|d IH];
    cbn [Pos.of_uint Decimal.nb_digits]; [cbn; lia|..];
    rewrite Nat2N.inj_succ, N.pow_succ_r';
    [lia|..];
    match goal with
    | |- context [Pos.of_uint_acc ?x ?a] => pose proof (of_uint_acc_bounds x a)
    end;
    set (p := (10 ^ N.of_nat (Decimal.nb_digits d))%N) in *; nia.
Qed.

(** A digit string that does not begin with 0 is worth at least the
    power of ten of its length less one. *)
Lemma of_uint_lower d :
  d ≠ Decimal.Nil → Decimal.nzhead d = d →
  (10 ^ N.of_nat (Decimal.nb_digits d - 1) ≤ Pos.of_uint d)%N.
Proof.
  destruct d as [|d|d|d|d|d|d|d|d|d|d]; intros Hnil Hhead; [done|..];
    cbn [Pos.of_uint Decimal.nb_digits]; rewrite ?Nat.sub_succ, ?Nat.sub_0_r.
  { exfalso. cbn in Hhead. pose proof (DecimalFacts.nb_digits_nzhead d) as H.
    rewrite Hhead in H. cbn in H. lia. }
  all: match goal with
       | |- context [Pos.of_uint_acc ?x ?a] => pose proof (of_uint_acc_bounds x a)
       end;
       set (p := (10 ^ N.of_nat (Decimal.nb_digits d))%N) in *; nia.
Qed.

Lemma to_uint_nzhead p : Decimal.nzhead (Pos.to_uint p) = Pos.to_uint p.
Proof.
  pose proof (DecimalPos.Unsigned.to_of (Pos.to_uint p)) as H.
  rewrite DecimalPos.Unsigned.of_to in H. cbn [N.to_uint] in H.
  pose proof (DecimalPos.Unsigned.to_uint_nonzero p) as Hz.
  unfold Decimal.unorm in H.
  destruct (Decimal.nzhead (Pos.to_uint p)) eqn:E; by symmetry.
Qed.

(** The number of digits of [n]: the least [k] with [n < 10 ^ k], and
    at least 1. *)
Lemma digits_length_bounds n :
  (n < 10 ^ N.of_nat (List.length (digits n)))%N
  ∧ (n ≠ 0%N → 10 ^ N.of_nat (List.length (digits n) - 1) ≤ n)%N
  ∧ (1 ≤ List.length (digits n))%nat.
Proof.
  unfold digits. rewrite uint_codes_length.
  pose proof (DecimalN.Unsigned.of_to n) as Hn. unfold N.of_uint in Hn.
  split; [|split].
  - pose proof (of_uint_upper (N.to_uint n)). by rewrite Hn in H.
  - intros Hn0. destruct n as [|p]; [done|]. cbn [N.to_uint] in *.
    rewrite <- Hn. apply of_uint_lower; [|apply to_uint_nzhead].
    apply DecimalPos.Unsigned.to_uint_nonnil.
  - destruct n as [|p]; [cbn; lia|]. cbn [N.to_uint].
    pose proof (DecimalPos.Unsigned.to_uint_nonnil p).
    destruct (Pos.to_uint p); cbn; (done || lia).
Qed.

Lemma digits_length_le n k :
  (1 ≤ k)%nat → (List.length (digits n) ≤ k)%nat ↔ (n < 10 ^ N.of_nat k)%N.
Proof.
  intros Hk. destruct (digits_length_bounds n) as (Hup & Hlow & Hpos). split.
  - intros Hle. eapply N.lt_le_trans; [exact Hup|].
    apply N.pow_le_mono_r; lia.
  - intros Hlt. destruct (decide (n = 0%N)) as [->|Hn0]; [cbn; lia|].
    specialize (Hlow Hn0).
    destruct (decide (List.length (digits n) ≤ k)%nat) as [|Hgt]; [done|].
    exfalso. assert (10 ^ N.of_nat k ≤ 10 ^ N.of_nat (List.length (digits n) - 1))%N.
    { apply N.pow_le_mono_r; lia. }
    lia.
Qed.

Lemma replace_char_id old new s : old ∉ s → replace_char old new s = s.
Proof.
  unfold replace_char. induction s as [|c s IH]; [done|].
  intros [Hc Hs]%not_elem_of_cons. cbn. rewrite IH by done.
  by case_decide.
Qed.

Lemma digits_no_line_feed s : Forall is_digit s → 10%N ∉ s.
Proof.
  intros Hs Hin. rewrite Forall_forall in Hs. specialize (Hs _ Hin).
  unfold is_digit in Hs. lia.
Qed.

(** Zero padding of a number that is not negative and fits. *)
Lemma fmt_0d_nonneg width z :
  0 ≤ z →
  fmt_0d width z
  = replicate (width - List.length (digits (Z.to_N z))) 48%N ++ digits (Z.to_N z)
  ∧ Forall is_digit (fmt_0d width z)
  ∧ ((1 ≤ width)%nat →
     List.length (fmt_0d width z) = width ↔ z < 10 ^ Z.of_nat width).
Proof.
  intros Hz. unfold fmt_0d. replace (Z.abs_N z) with (Z.to_N z) by lia.
  destruct (z <? 0) eqn:E; [lia|]. split; [done|]. split.
  - apply Forall_app. split; [|apply digits_are_digits].
    apply Forall_replicate. unfold is_digit. lia.
  - intros Hw. rewrite length_app, length_replicate.
    pose proof (digits_length_le (Z.to_N z) width Hw) as Hle.
    assert (Hpow : (Z.to_N z < 10 ^ N.of_nat width)%N ↔ z < 10 ^ Z.of_nat width).
    { rewrite <- nat_N_Z. change 10 with (Z.of_N 10). rewrite <- N2Z.inj_pow. lia. }
    rewrite <- Hpow, <- Hle. lia.
Qed.

(** ** Integer fields *)

Lemma IntegerField_init_Ok values kw counter f counter' :
  IntegerField_init values kw counter = Ok (f, counter') →
  Field.cls f = IntegerField ∧ Field.values f = values.
Proof. by intros [-> _]%FieldBase_init_Ok. Qed.

(** X4: an integer field of fixed length [n] that accepts an integer
    which is not negative returns its decimal digits preceded by zeros
    up to [n] characters; the text has exactly [n] characters if and
    only if the integer is below [10 ^ n], and is longer otherwise. *)
Theorem IntegerField_fixed_width values kw counter f counter' n z t :
  IntegerField_init values kw counter = Ok (f, counter') →
  Field.length f = Some n →
  n ≠ 0%nat →
  0 ≤ z →
  process f (VInt z) = Ok t →
  t = replicate (n - List.length (digits (Z.to_N z))) 48%N ++ digits (Z.to_N z)
  ∧ Forall is_digit t
  ∧ (List.length t = n ↔ z < 10 ^ Z.of_nat n)
  ∧ (n ≤ List.length t)%nat.
Proof.
  intros [Hcls _]%IntegerField_init_Ok Hlen Hn Hz Hp.
  unfold process in Hp. rewrite Hcls in Hp. unfold IntegerField_process in Hp.
  rewrite Hlen, andb_false_r in Hp. cbn [bool_decide decide_rel andb] in Hp.
  destruct n as [|n']; [done|]. cbn [is_set default] in Hp.
  destruct (not_permitted (Field.values f) (VInt z)) as [[|]|]; cbn in Hp;
    try discriminate.
  injection Hp as <-.
  destruct (fmt_0d_nonneg (S n') z Hz) as (Heq & Hdig & Hiff).
  split; [done|]. split; [done|]. split; [apply Hiff; lia|].
  rewrite fmt_0d_length. lia.
Qed.

Lemma IntegerField_fixed_width_witness :
  (p ← IntegerField_init None (kw_length 3) 0; process p.1 (VInt 10)) = Ok (u "010")
  ∧ (List.length (u "010") = 3%nat ↔ 10 < 10 ^ Z.of_nat 3).
Proof.
  split; [reflexivity|].
  exact (proj1 (proj2 (proj2
    (IntegerField_fixed_width None (kw_length 3) 0
       (Field.mk IntegerField None 0 (Some 3%nat) None None false None false None)
       1%nat 3%nat 10 (u "010") eq_refl eq_refl (fun H => O_S 2 (eq_sym H))
       ltac:(lia) eq_refl)))).
Defined.

(** X5: an integer field constructed with a non-empty tuple or list of
    allowed values returns only for a member of it, or with the empty
    text for [None] when blanks are allowed. *)
Theorem IntegerField_values_enforced items kw counter f counter' v t :
  IntegerField_init (Some (CSeq items)) kw counter = Ok (f, counter') →
  items ≠ [] →
  process f v = Ok t →
  v ∈ items ∨ v = VNone ∧ Field.blank f = true ∧ t = [].
Proof.
  intros [Hcls Hvalues]%IntegerField_init_Ok Hitems Hp.
  unfold process in Hp. rewrite Hcls in Hp. unfold IntegerField_process in Hp.
  destruct (Field.blank f && bool_decide (v = VNone)) eqn:Hblank.
  { apply andb_true_iff in Hblank as [Hb Hv%bool_decide_eq_true].
    injection Hp as <-. by right. }
  destruct (bool_decide (v = VNone) && is_set (Field.length f)); [discriminate|].
  rewrite Hvalues in Hp. unfold not_permitted, coll_truthy, py_in in Hp.
  rewrite bool_decide_eq_false_2 in Hp by done. cbn in Hp.
  case_bool_decide as Hin; [by left|]. discriminate.
Qed.

Lemma IntegerField_values_enforced_witness :
  (p ← IntegerField_init (Some (CSeq [VInt 1; VInt 2])) (kw_length 1) 0;
   process p.1 (VInt 2)) = Ok (u "2")
  ∧ (VInt 2 ∈ [VInt 1; VInt 2] ∨ VInt 2 = VNone ∧ false = true ∧ u "2" = []).
Proof.
  split; [reflexivity|].
  exact (IntegerField_values_enforced [VInt 1; VInt 2] (kw_length 1) 0
           (Field.mk IntegerField (Some (CSeq [VInt 1; VInt 2])) 0 (Some 1%nat)
              None None false None false None)
           1%nat (VInt 2) (u "2") eq_refl ltac:(discriminate) eq_refl).
Defined.

Lemma not_permitted_Raise values v e : not_permitted values v = Raise e → e = TypeError.
Proof.
  unfold not_permitted, py_in. destruct values as [[items|s]|]; [| |done].
  - by destruct (coll_truthy (CSeq items)).
  - destruct (coll_truthy (CStr s)); [|done]. destruct v; cbn; congruence.
Qed.

(** X6: an integer field with neither a fixed length nor a maximum
    length returns for no integer: a value that is not permitted raises
    [ValueError], every other integer raises [TypeError] (its length is
    compared with [None]). *)
Theorem IntegerField_unbounded_never_returns values kw counter f counter' z :
  IntegerField_init values kw counter = Ok (f, counter') →
  is_set (Field.length f) = false →
  Field.max_length f = None →
  process f (VInt z) = Raise TypeError
  ∨ process f (VInt z) = Raise (ValueError "Value not allowed").
Proof.
  intros [Hcls _]%IntegerField_init_Ok Hlen Hmax.
  unfold process. rewrite Hcls. unfold IntegerField_process.
  rewrite Hlen, Hmax, !andb_false_r.
  destruct (not_permitted (Field.values f) (VInt z)) as [[|]|e] eqn:E; cbn; auto.
  apply not_permitted_Raise in E as ->. by left.
Qed.

Lemma IntegerField_unbounded_never_returns_witness :
  (p ← IntegerField_init (Some (CSeq [VInt 0; VInt 1; VInt 2])) Kw.default 0;
   process p.1 (VInt 1)) = Raise TypeError
  ∧ (@Raise pystr TypeError = Raise TypeError
     ∨ @Raise pystr TypeError = Raise (ValueError "Value not allowed")).
Proof.
  split; [reflexivity|].
  exact (IntegerField_unbounded_never_returns
           (Some (CSeq [VInt 0; VInt 1; VInt 2])) Kw.default 0
           (Field.mk IntegerField (Some (CSeq [VInt 0; VInt 1; VInt 2])) 0 None
              None None false None false None)
           1%nat 1 eq_refl eq_refl eq_refl).
Defined.

(** ** Date fields *)

(** A text field without allowed values accepts a non-empty string
    that meets its lengths. *)
Lemma StringField_process_str f text :
  Field.values f = None →
  text ≠ [] →
  (is_set (Field.length f) = true → Some (List.length text) = Field.length f) →
  (is_set (Field.max_length f) = true →
   (List.length text ≤ default 0%nat (Field.max_length f))%nat) →
  StringField_process f (VStr text) = Ok (replace_char 10%N 32%N text).
Proof.
  intros Hvalues Htext Hlen Hmax. unfold StringField_process, str_or_empty.
  cbn [truthy]. rewrite (bool_decide_eq_false_2 _ Htext). cbn [negb andb].
  rewrite Hvalues. cbn.
  rewrite (bool_decide_eq_false_2 (VStr text = VNone)) by done. cbn [andb].
  destruct (is_set (Field.length f)) eqn:E1; cbn [andb].
  - rewrite (bool_decide_eq_true_2 _ (Hlen eq_refl)). cbn [negb].
    destruct (is_set (Field.max_length f)) eqn:E2; cbn [andb]; [|done].
    rewrite bool_decide_eq_false_2; [done|]. specialize (Hmax eq_refl). lia.
  - destruct (is_set (Field.max_length f)) eqn:E2; cbn [andb]; [|done].
    rewrite bool_decide_eq_false_2; [done|]. specialize (Hmax eq_refl). lia.
Qed.

Lemma fmt_0d_fits width z :
  (1 ≤ width)%nat → 0 ≤ z < 10 ^ Z.of_nat width →
  List.length (fmt_0d width z) = width ∧ Forall is_digit (fmt_0d width z).
Proof.
  intros Hw [Hz Hlt]. destruct (fmt_0d_nonneg width z Hz) as (_ & Hdig & Hiff).
  split; [by apply Hiff|done].
Qed.

(** X7: a date field accepts every calendar date of the years 1 to
    9999: [DateField] returns the eight digits YYYYMMDD and
    [ShortDateField] the six digits DDMMYY. *)
Theorem date_fields_format cls kw counter f counter' y m d :
  cls = ShortDateField ∨ cls = DateField →
  construct cls None kw counter = Ok (f, counter') →
  1 ≤ y ≤ 9999 → 1 ≤ m ≤ 12 → 1 ≤ d ≤ 31 →
  ∃ t, process f (VDate y m d) = Ok t
       ∧ Forall is_digit t
       ∧ match cls with
         | ShortDateField =>
             t = fmt_0d 2 d ++ fmt_0d 2 m ++ fmt_0d 2 (y mod 100)
             ∧ List.length t = 6%nat
         | _ =>
             t = fmt_0d 4 y ++ fmt_0d 2 m ++ fmt_0d 2 d
             ∧ List.length t = 8%nat
         end.
Proof.
  intros Hkind Hc Hy Hm Hd.
  pose proof (construct_Ok _ _ _ _ _ _ Hc) as (Hcls & _ & _ & Hshape).
  assert (Hvalues : Field.values f = None).
  { destruct Hkind as [-> | ->]; cbn in Hc;
      by apply FieldBase_init_Ok in Hc as [-> _]. }
  assert (Hd2 : List.length (fmt_0d 2 d) = 2%nat ∧ Forall is_digit (fmt_0d 2 d))
    by (apply fmt_0d_fits; cbn; lia).
  assert (Hm2 : List.length (fmt_0d 2 m) = 2%nat ∧ Forall is_digit (fmt_0d 2 m))
    by (apply fmt_0d_fits; cbn; lia).
  assert (Hy2 : List.length (fmt_0d 2 (y mod 100)) = 2%nat
                ∧ Forall is_digit (fmt_0d 2 (y mod 100))).
  { apply fmt_0d_fits; [lia|]. pose proof (Z.mod_pos_bound y 100). cbn. lia. }
  assert (Hy4 : List.length (fmt_0d 4 y) = 4%nat ∧ Forall is_digit (fmt_0d 4 y))
    by (apply fmt_0d_fits; cbn; lia).
  assert (Hgo : ∀ text n, Field.length f = Some n → List.length text = n →
                 n ≠ 0%nat → Forall is_digit text →
                 StringField_process f (VStr text) = Ok text).
  { intros text n Hlen Htext Hn Hdig.
    rewrite (StringField_process_str f text Hvalues).
    - by rewrite replace_char_id by (by apply digits_no_line_feed).
    - intros ->. cbn in Htext. lia.
    - intros _. congruence.
    - intros Hset. destruct (Field.max_length f) as [[|mx]|] eqn:Hmax; try done.
      rewrite <- (construct_lengths _ _ _ _ _ _ n (S mx) Hc Hlen Hn Hmax); [cbn; lia|done]. }
  unfold process. rewrite Hcls.
  destruct Hkind as [-> | ->].
  - exists (fmt_0d 2 d ++ fmt_0d 2 m ++ fmt_0d 2 (y mod 100)).
    assert (Hl : List.length (fmt_0d 2 d ++ fmt_0d 2 m ++ fmt_0d 2 (y mod 100)) = 6%nat).
    { rewrite !length_app. lia. }
    assert (Hdig : Forall is_digit (fmt_0d 2 d ++ fmt_0d 2 m ++ fmt_0d 2 (y mod 100))).
    { rewrite !Forall_app. tauto. }
    split; [|by repeat split].
    unfold ShortDateField_process, strftime_dmy. cbn [truthy negb andb].
    by apply (Hgo _ 6%nat).
  - exists (fmt_0d 4 y ++ fmt_0d 2 m ++ fmt_0d 2 d).
    assert (Hl : List.length (fmt_0d 4 y ++ fmt_0d 2 m ++ fmt_0d 2 d) = 8%nat).
    { rewrite !length_app. lia. }
    assert (Hdig : Forall is_digit (fmt_0d 4 y ++ fmt_0d 2 m ++ fmt_0d 2 d)).
    { rewrite !Forall_app. tauto. }
    split; [|by repeat split].
    unfold DateField_process. cbn [truthy negb andb].
    by apply (Hgo _ 8%nat).
Qed.

Lemma date_fields_format_witness :
  ∃ t, (p ← DateField_init Kw.default 0; process p.1 (VDate 2014 10 11)) = Ok t
       ∧ Forall is_digit t
       ∧ t = u "20141011" ∧ List.length t = 8%nat.
Proof.
  destruct (date_fields_format DateField Kw.default 0
              (Field.mk DateField None 0 (Some 8%nat) None None false None false None)
              1%nat 2014 10 11 (or_intror eq_refl) eq_refl
              ltac:(lia) ltac:(lia) ltac:(lia)) as (t & Hp & Hdig & Heq & Hlen).
  exists t. split; [exact Hp|]. split; [exact Hdig|]. split; [exact Heq|exact Hlen].
Defined.

(** ** Text fields once more *)

Lemma str_or_empty_nil v : str_or_empty v = [] → truthy v = false.
Proof.
  unfold str_or_empty. destruct (truthy v) eqn:E; [|done].
  destruct v as [|s|z|y m d]; cbn in *; try done.
  - intros ->. done.
  - unfold fmt_d. pose proof (digits_nonempty (Z.abs_N z)).
    by destruct (z <? 0).
  - intros H. apply app_eq_nil in H as [H _]. by apply fmt_0d_nonempty in H.
Qed.

(** X8: processing is idempotent on text fields: the text a text field
    returns for a value is accepted by the same field and returned
    unchanged. *)
Theorem text_field_process_idempotent f v t :
  text_kind f →
  Field.values f = None →
  process f v = Ok t →
  process f (VStr t) = Ok t.
Proof.
  intros Hkind Hvalues Hp.
  assert (Hs : StringField_process f v = Ok t).
  { unfold process in Hp. by destruct Hkind as [E | E]; rewrite E in Hp. }
  assert (Hgoal : StringField_process f (VStr t) = Ok t);
    [|unfold process; by destruct Hkind as [-> | ->]].
  clear Hp. destruct (decide (t = [])) as [->|Ht].
  - pose proof (StringField_process_Ok _ _ _ Hs) as [Hnil _].
    assert (Hv : truthy v = false).
    { apply str_or_empty_nil. symmetry in Hnil.
      unfold replace_char in Hnil. by apply fmap_nil_inv in Hnil. }
    revert Hs. unfold StringField_process.
    rewrite Hv, Hvalues, (str_or_empty_falsy _ Hv).
    change (truthy (VStr [])) with false.
    change (str_or_empty (VStr [])) with (@nil N).
    change (bool_decide (VStr [] = VNone)) with false.
    cbn [negb andb not_permitted mbind result_bind].
    destruct (Field.blank f); [done|].
    destruct (Field.required f); [done|].
    by destruct (bool_decide (v = VNone) && is_set (Field.length f)).
  - pose proof Hs as [Heq [[Hv _] | [Hlen Hmax]]]%StringField_process_Ok.
    { rewrite (str_or_empty_falsy _ Hv) in Heq. done. }
    rewrite StringField_process_str; try done.
    + rewrite Heq. rewrite replace_char_id; [done|].
      by apply replace_char_not_elem.
    + intros Hset. rewrite Heq, replace_char_length. by apply Hlen.
    + intros Hset. rewrite Heq, replace_char_length. by apply Hmax.
Qed.

Lemma text_field_process_idempotent_witness :
  process (Field.mk StringField None 0 None (Some 5%nat) None false None false None)
          (VStr (u "a" ++ [10%N] ++ u "b")) = Ok (u "a b")
  ∧ process (Field.mk StringField None 0 None (Some 5%nat) None false None false None)
            (VStr (u "a b")) = Ok (u "a b").
Proof.
  split; [reflexivity|].
  exact (text_field_process_idempotent
           (Field.mk StringField None 0 None (Some 5%nat) None false None false None)
           (VStr (u "a" ++ [10%N] ++ u "b")) (u "a b")
           (or_introl eq_refl) eq_refl eq_refl).
Defined.

(** ** Creation counters and the order of registration *)

Lemma get_declared_fields_eq attrs w :
  get_declared_fields attrs w
  = Ok (sorted (counter_of (heap w)) (field_attrs attrs),
        {| creation_counter := creation_counter w;
           heap := register_fields 0 (sorted (counter_of (heap w)) (field_attrs attrs))
                     (heap w) |}).
Proof.
  unfold get_declared_fields.
  set (fields := sorted (counter_of (heap w)) (field_attrs attrs)).
  set (h := register_fields 0 fields (heap w)).
  rewrite (sorted_of_ordered (counter_of h) fields); [done|].
  apply (ordered_ext (counter_of (heap w))); [|apply sorted_ordered].
  intros x. unfold h. by rewrite register_fields_counter.
Qed.

(** Registration changes neither which locations hold an object nor
    its creation counter. *)
Lemma register_field_lookup index field_name l h l' f' :
  register_field index field_name l h !! l' = Some f' →
  ∃ f, h !! l' = Some f ∧ Field.creation_counter f' = Field.creation_counter f.
Proof.
  unfold register_field. destruct (h !! l) as [field|] eqn:Hl; [|by eauto].
  destruct (decide (l = l')) as [<-|Hne].
  - rewrite list_lookup_insert_eq by (by eapply lookup_lt_Some).
    intros [= <-]. exists field. split; [done|]. by destruct (Field.name field).
  - rewrite list_lookup_insert_ne by done. eauto.
Qed.

Lemma register_fields_lookup index fields h l' f' :
  register_fields index fields h !! l' = Some f' →
  ∃ f, h !! l' = Some f ∧ Field.creation_counter f' = Field.creation_counter f.
Proof.
  revert index h f'. induction fields as [|[name l] fields IH]; intros index h f' H;
    [by eauto|].
  cbn [register_fields] in H. apply IH in H as (f1 & H1 & E1).
  apply register_field_lookup in H1 as (f & Hf & E). exists f. split; [done|congruence].
Qed.

Lemma ordered_lookup {A} (key : A → nat) l i j x y :
  ordered key l → (i < j)%nat → l !! i = Some x → l !! j = Some y →
  (key x ≤ key y)%nat.
Proof.
  revert i j. induction l as [|z l IH]; intros i j Hord Hij Hi Hj; [done|].
  destruct Hord as [Hz Hl].
  destruct j as [|j]; [lia|]. cbn in Hj. destruct i as [|i].
  - injection Hi as ->. rewrite Forall_forall in Hz. apply Hz.
    by eapply list_elem_of_lookup_2.
  - cbn in Hi. apply (IH i j); [done|lia|done..].
Qed.

(** X9: the ascending order of creation counters is an invariant of
    the interpreter state: it holds initially, and constructing a field
    (which puts the new object at the next location, with the current
    counter, and advances the counter by one) and registering a class
    both keep it. *)
Theorem counters_ascending_invariant :
  counters_ascending world0
  ∧ (∀ cls values kw w l w',
       counters_ascending w →
       new (construct cls values kw) w = Ok (l, w') →
       counters_ascending w'
       ∧ l = List.length (heap w)
       ∧ creation_counter w' = S (creation_counter w)
       ∧ ∃ f, heap w' = heap w ++ [f]
              ∧ Field.creation_counter f = creation_counter w)
  ∧ (∀ attrs w fields w',
       counters_ascending w →
       get_declared_fields attrs w = Ok (fields, w') →
       counters_ascending w').
Proof.
  split; [|split].
  - split; intros *; cbn; by rewrite ?lookup_nil.
  - intros cls values kw w l w' [Hbelow Hasc]. unfold new.
    destruct (construct cls values kw (creation_counter w)) as [[f c]|] eqn:Hc;
      [|discriminate].
    intros [= <- <-]. apply construct_Ok in Hc as (_ & Hf & -> & _).
    split; [|by eauto]. split; cbn [heap creation_counter].
    + intros l f0 [H|[_ H]]%lookup_app_Some.
      * specialize (Hbelow _ _ H). lia.
      * apply list_lookup_singleton_Some in H as [_ <-]. lia.
    + intros l l' f0 f1 Hlt [H0|[Hge0 H0]]%lookup_app_Some
        [H1|[Hge1 H1]]%lookup_app_Some.
      * by eapply Hasc.
      * apply list_lookup_singleton_Some in H1 as [_ <-].
        specialize (Hbelow _ _ H0). lia.
      * apply lookup_lt_Some in H1. lia.
      * apply list_lookup_singleton_Some in H0 as [? _].
        apply list_lookup_singleton_Some in H1 as [? _]. lia.
  - intros attrs w fields w' [Hbelow Hasc]. rewrite get_declared_fields_eq.
    intros [= <- <-]. split; cbn [heap creation_counter].
    + intros l f' (f & Hf & ->)%register_fields_lookup. by eapply Hbelow.
    + intros l l' f0' f1' Hlt (f0 & H0 & ->)%register_fields_lookup
        (f1 & H1 & ->)%register_fields_lookup.
      by eapply Hasc.
Qed.

Lemma counters_ascending_invariant_witness :
  counters_ascending world0
  ∧ ∃ l w', new (construct StringField None (kw_max_length 30)) world0 = Ok (l, w')
            ∧ counters_ascending w' ∧ l = 0%nat ∧ creation_counter w' = 1%nat.
Proof.
  split; [exact (proj1 counters_ascending_invariant)|].
  eexists _, _. split; [reflexivity|].
  destruct (proj1 (proj2 counters_ascending_invariant)
              StringField None (kw_max_length 30) world0 _ _
              (proj1 counters_ascending_invariant) eq_refl) as (H1 & H2 & H3 & _).
  split; [exact H1|]. split; [exact H2|exact H3].
Defined.

(** X10: in a state where creation counters ascend, registration
    returns the distinct field objects of a class body in the order in
    which they were constructed (ascending location), whatever the
    order of the attributes in the class body and whether or not the
    fields have explicit names. *)
Theorem registration_keeps_construction_order attrs w :
  counters_ascending w →
  NoDup (field_attrs attrs).*2 →
  (∀ e, e ∈ field_attrs attrs → is_Some (heap w !! e.2)) →
  ∃ fields w',
    get_declared_fields attrs w = Ok (fields, w')
    ∧ fields ≡ₚ field_attrs attrs
    ∧ ∀ i j e e', (i < j)%nat → fields !! i = Some e → fields !! j = Some e' →
                  (e.2 < e'.2)%nat.
Proof.
  intros [_ Hasc] Hnd Hheap. rewrite get_declared_fields_eq.
  eexists _, _. split; [reflexivity|].
  set (fields := sorted (counter_of (heap w)) (field_attrs attrs)).
  assert (Hperm : fields ≡ₚ field_attrs attrs) by apply sorted_perm.
  split; [done|]. intros i j e e' Hij Hi Hj.
  pose proof (ordered_lookup _ _ i j e e' (sorted_ordered _ _) Hij Hi Hj) as Hle.
  assert (He : e ∈ field_attrs attrs).
  { rewrite <- Hperm. by eapply list_elem_of_lookup_2. }
  assert (He' : e' ∈ field_attrs attrs).
  { rewrite <- Hperm. by eapply list_elem_of_lookup_2. }
  destruct (Hheap e He) as [f Hf]. destruct (Hheap e' He') as [f' Hf'].
  unfold counter_of in Hle. rewrite Hf, Hf' in Hle. cbn in Hle.
  destruct (Nat.lt_trichotomy e.2 e'.2) as [Hlt|[Heq|Hgt]]; [done| |].
  - exfalso. assert (Hnd' : NoDup fields.*2) by (by rewrite Hperm).
    assert (i = j); [|lia].
    apply (NoDup_lookup fields.*2 i j e.2 Hnd').
    + apply list_lookup_fmap_Some. by exists e.
    + apply list_lookup_fmap_Some. by exists e'.
  - pose proof (Hasc _ _ _ _ Hgt Hf' Hf). lia.
Qed.

Lemma registration_keeps_construction_order_witness :
  counters_ascending TranslationRow_unregistered.2
  ∧ ∃ fields w',
      get_declared_fields [("b", AField 1%nat); ("a", AField 0%nat)]
        TranslationRow_unregistered.2 = Ok (fields, w')
      ∧ fields ≡ₚ [("b", 1%nat); ("a", 0%nat)]
      ∧ ∀ i j e e', (i < j)%nat → fields !! i = Some e → fields !! j = Some e' →
                    (e.2 < e'.2)%nat.
Proof.
  assert (H1 : counters_ascending TranslationRow_unregistered.2).
  { split; intros *; cbn.
    - destruct l as [|[|l]]; cbn; intros [= <-]; cbn; lia.
    - destruct l as [|[|l]], l' as [|[|l']]; cbn; try lia; try done;
        intros _ [= <-] [= <-]; cbn; lia. }
  split; [exact H1|].
  refine (registration_keeps_construction_order
            [("b", AField 1%nat); ("a", AField 0%nat)]
            TranslationRow_unregistered.2 H1 _ _).
  - compute_done.
  - intros e He. cbn in He.
    apply elem_of_cons in He as [->|He]; [by eexists|].
    apply elem_of_cons in He as [->|He]; [by eexists|].
    by apply elem_of_nil in He.
Defined.

(** ** The legend of a row *)

Example RowBase_str_Artikelzeile2 :
  RowBase_str W (Artikelzeile2 rows) (RowBase_init (Artikelzeile2 rows) ∅)
  = Ok (u "1:Satzartenkennzeichen;2:Verarbeitungsmerker;3:Artikelnummer;4:Matchcode;"
        ++ u "5:Alternativ artikelnummer;6:Katalogseite;7:Kupfer gewichtsmerker;"
        ++ u "8:Kupfer kennzahl;9:Kupfer gewicht;10:Ean;11:Anbindungsnummer;"
        ++ u "12:Warengruppe;13:Kostenart;14:Verpackungsmenge;"
        ++ u "15:Referenznummer erstellerkuerzel;16:Referenznummer").
Proof. vm_compute. reflexivity. Qed.




(** ** Success, failure and keyword arguments of a row *)

Section RowErrors.
Variable nfkc : pystr → pystr.

Lemma encoded_fields_first_error w cs kwargs vs before entry after texts field e :
  (∀ x, x ∈ before ++ entry :: after →
        vs !! x.1 = Some (default VNone (kwargs !! x.1))) →
  Forall2 (processed w kwargs) before texts →
  heap w !! entry.2 = Some field →
  process field (default VNone (kwargs !! entry.1)) = Raise e →
  encoded_fields nfkc (heap w) cs vs (before ++ entry :: after)
  = (Raise e, mjoin (zip_with (logged_for nfkc cs) before texts)).
Proof.
  intros Hvs Hall Hfield Hp.
  induction Hall as [|[name l] text before texts (f & Hf & Hpf) Hall IH].
  - cbn [app encoded_fields zip_with mjoin].
    pose proof (Hvs entry ltac:(by left)) as Hv.
    destruct entry as [name l]. cbn [fst snd] in *. by rewrite Hv, Hfield, Hp.
  - cbn [app encoded_fields zip_with]. cbn [fst snd] in Hf, Hpf.
    pose proof (Hvs (name, l) ltac:(by left)) as Hv. cbn [fst] in Hv.
    rewrite Hv, Hf, Hpf. unfold logged_for at 1. cbn [fst].
    destruct (normalize_and_encode nfkc cs text (Some name)) as [bs logged].
    rewrite IH by (intros x Hx; apply Hvs; by right).
    by rewrite mjoin_cons.
Qed.

Lemma encoded_fields_processed w cs kwargs vs fields parts :
  (∀ x, x ∈ fields → vs !! x.1 = Some (default VNone (kwargs !! x.1))) →
  (encoded_fields nfkc (heap w) cs vs fields).1 = Ok parts →
  ∃ texts, Forall2 (processed w kwargs) fields texts.
Proof.
  revert parts. induction fields as [|[name l] fields IH]; intros parts Hvs.
  - exists []. constructor.
  - cbn [encoded_fields].
    pose proof (Hvs (name, l) ltac:(by left)) as Hv. cbn [fst] in Hv. rewrite Hv.
    destruct (heap w !! l) as [field|] eqn:Hf; [|discriminate].
    destruct (process field (default VNone (kwargs !! name))) as [text|] eqn:Hp;
      [|discriminate].
    destruct (normalize_and_encode nfkc cs text (Some name)) as [bs logged].
    destruct (encoded_fields nfkc (heap w) cs vs fields) as [[ps|] logged'] eqn:E;
      [|discriminate].
    intros _. destruct (IH ps) as [texts Htexts].
    + intros x Hx. apply Hvs. by right.
    + done.
    + exists (text :: texts). constructor; [|done]. by exists field.
Qed.

(** X12: the output of a row succeeds if and only if every field
    processes the value bound to it. *)
Theorem RowBase_output_succeeds_iff w cls kwargs :
  (∃ output, (RowBase_output nfkc w cls (RowBase_init cls kwargs)).1 = Ok output)
  ↔ ∃ texts, Forall2 (processed w kwargs) (base_fields cls) texts.
Proof.
  split.
  - intros [output Hout]. unfold RowBase_output in Hout.
    change (fields (RowBase_init cls kwargs)) with (base_fields cls) in Hout.
    destruct (encoded_fields nfkc (heap w) (charset cls) _ (base_fields cls))
      as [[parts|] logged] eqn:E; [|discriminate].
    eapply (encoded_fields_processed w (charset cls) kwargs _ _ parts).
    + apply RowBase_init_values.
    + by rewrite E.
  - intros [texts Hall]. unfold RowBase_output.
    pose proof (encoded_fields_Ok nfkc w (charset cls) kwargs
                  (values (RowBase_init cls kwargs)) (base_fields cls) texts
                  (RowBase_init_values cls kwargs) Hall) as Hparts.
    change (fields (RowBase_init cls kwargs)) with (base_fields cls).
    destruct (encoded_fields nfkc (heap w) (charset cls) _ (base_fields cls))
      as [r logged].
    cbn [fst] in Hparts |- *. rewrite Hparts. by eexists.
Qed.

(** X13: when the fields before some field process and that field
    raises, the output of the row raises the same exception, the later
    fields are not processed, and what was logged is what the encoder
    logged for the fields before. *)
Theorem RowBase_output_first_error w cls kwargs before entry after texts field e :
  base_fields cls = before ++ entry :: after →
  Forall2 (processed w kwargs) before texts →
  heap w !! entry.2 = Some field →
  process field (default VNone (kwargs !! entry.1)) = Raise e →
  RowBase_output nfkc w cls (RowBase_init cls kwargs)
  = (Raise e, mjoin (zip_with (logged_for nfkc (charset cls)) before texts)).
Proof.
  intros Hfields Hall Hfield Hp. unfold RowBase_output.
  change (fields (RowBase_init cls kwargs)) with (base_fields cls).
  pose proof (encoded_fields_first_error w (charset cls) kwargs
                (values (RowBase_init cls kwargs)) before entry after
                texts field e) as H.
  rewrite <- Hfields in H. rewrite H; [done| |done..].
  intros x Hx. by apply RowBase_init_values.
Qed.

End RowErrors.

Lemma RowBase_output_first_error_witness :
  (RowBase_output (fun s => s) TranslationRow.2 TranslationRow.1
     (RowBase_init TranslationRow.1
        (list_to_map [("a", VStr [176%N]); ("b", VStr (replicate 31 97%N))]))).1
  = Raise (ValueError "Value longer than max_length")
  ∧ List.length
      (RowBase_output (fun s => s) TranslationRow.2 TranslationRow.1
         (RowBase_init TranslationRow.1
            (list_to_map [("a", VStr [176%N]); ("b", VStr (replicate 31 97%N))]))).2
    = 1%nat.
Proof.
  assert (H2 : Forall2
                 (processed TranslationRow.2
                    (list_to_map [("a", VStr [176%N]); ("b", VStr (replicate 31 97%N))]))
                 [("a", 0%nat)] [[176%N]]).
  { repeat constructor. eexists. split; [reflexivity|]. vm_compute. reflexivity. }
  rewrite (RowBase_output_first_error (fun s => s) TranslationRow.2 TranslationRow.1
             _ [("a", 0%nat)] ("b", 1%nat) [] [[176%N]] _
             (ValueError "Value longer than max_length") eq_refl H2 eq_refl eq_refl).
  split; [reflexivity|]. vm_compute. reflexivity.
Defined.

Lemma RowBase_output_succeeds_iff_witness :
  (∃ output,
     (RowBase_output (fun s => s) TranslationRow.2 TranslationRow.1
        (RowBase_init TranslationRow.1
           (list_to_map [("a", VStr [252%N]); ("b", VStr [223%N])]))).1 = Ok output)
  ∧ ∃ texts,
      Forall2 (processed TranslationRow.2
                 (list_to_map [("a", VStr [252%N]); ("b", VStr [223%N])]))
        (base_fields TranslationRow.1) texts.
Proof.
  assert (H : ∃ output,
            (RowBase_output (fun s => s) TranslationRow.2 TranslationRow.1
               (RowBase_init TranslationRow.1
                  (list_to_map [("a", VStr [252%N]); ("b", VStr [223%N])]))).1
            = Ok output).
  { eexists. vm_compute. reflexivity. }
  split; [exact H|].
  exact (proj1 (RowBase_output_succeeds_iff (fun s => s) TranslationRow.2
                  TranslationRow.1 _) H).
Defined.

(** The values of a row depend on the keyword arguments only through
    the names of the fields. *)
Lemma RowBase_init_values_ext (kwargs kwargs' : gmap string PyVal)
    (entries : list (string * loc))
    (vs : gmap string PyVal) :
  (∀ x, x ∈ entries → kwargs !! x.1 = kwargs' !! x.1) →
  foldl (fun vs '(field_name, _) =>
           <[field_name := default VNone (kwargs !! field_name)]> vs) vs entries
  = foldl (fun vs '(field_name, _) =>
             <[field_name := default VNone (kwargs' !! field_name)]> vs) vs entries.
Proof.
  revert vs. induction entries as [|[name l] entries IH]; intros vs Hk; [done|].
  cbn [foldl]. pose proof (Hk (name, l) ltac:(by left)) as Hn. cbn [fst] in Hn.
  rewrite Hn. apply IH. intros x Hx. apply Hk. by right.
Qed.

Lemma RowBase_init_dom_from (kwargs : gmap string PyVal)
    (entries : list (string * loc))
    (vs : gmap string PyVal) :
  dom (foldl (fun vs '(field_name, _) =>
                <[field_name := default VNone (kwargs !! field_name)]> vs) vs entries)
  = dom vs ∪ list_to_set entries.*1.
Proof.
  revert vs. induction entries as [|[name l] entries IH]; intros vs.
  - cbn. by rewrite (right_id_L ∅ (∪)).
  - cbn [foldl]. rewrite IH, dom_insert_L. cbn [fmap list_fmap fst list_to_set].
    apply set_eq. intros x. rewrite !elem_of_union. tauto.
Qed.

(** X14: a row keeps one value for each of its fields and nothing
    else: keyword arguments that name no field are ignored, a field
    without keyword argument gets [None], and two sets of keyword
    arguments that agree on the field names make the same row, hence
    the same output. *)
Theorem RowBase_init_keeps_field_values cls kwargs :
  dom (values (RowBase_init cls kwargs)) = list_to_set (base_fields cls).*1
  ∧ (∀ entry, entry ∈ base_fields cls →
        values (RowBase_init cls kwargs) !! entry.1
        = Some (default VNone (kwargs !! entry.1)))
  ∧ (∀ kwargs',
       (∀ entry, entry ∈ base_fields cls → kwargs !! entry.1 = kwargs' !! entry.1) →
       RowBase_init cls kwargs = RowBase_init cls kwargs').
Proof.
  split; [|split].
  - unfold RowBase_init. cbn [values]. rewrite RowBase_init_dom_from, dom_empty_L.
    by rewrite (left_id_L ∅ (∪)).
  - apply RowBase_init_values.
  - intros kwargs' Hk. unfold RowBase_init. f_equal.
    by apply RowBase_init_values_ext.
Qed.

Lemma RowBase_init_keeps_field_values_witness :
  RowBase_init (VorlaufZeile rows) example_header
  = RowBase_init (VorlaufZeile rows) (delete "datenkennzeichen" example_header).
Proof.
  apply (proj2 (proj2 (RowBase_init_keeps_field_values (VorlaufZeile rows)
                         example_header))).
  intros [name l] He. cbn [fst]. rewrite lookup_delete_ne; [done|].
  intros <-. revert He. change (base_fields (VorlaufZeile rows))
    with [ ("satzartenkennzeichen", 0%nat); ("dummy", 1%nat);
           ("erstellungsdatum", 2%nat); ("informationstext1", 3%nat);
           ("informationstext2", 4%nat); ("informationstext3", 5%nat);
           ("version", 6%nat); ("waehrungskennzeichen", 7%nat) ].
  intros He.
  repeat (apply elem_of_cons in He as [He|He]; [discriminate He|]).
  by apply elem_of_nil in He.
Defined.

(** ** More on the default table *)

Lemma default_pairs_of_lookup c bs :
  charset_translations !! c = Some bs → (c, bs) ∈ custom_characters ++ ascii_pairs.
Proof.
  intros H. apply elem_of_app. unfold charset_translations in H.
  apply dict_update_lookup in H as [?|H]; [by left|].
  apply dict_update_lookup in H as [?|H]; [by right|].
  by rewrite lookup_empty in H.
Qed.

(** No entry of the default table is a control byte other than the
    tabulator. *)
Lemma charset_translations_no_control c bs x :
  charset_translations !! c = Some bs → x ∈ bs →
  x = x09 ∨ (32 ≤ Byte.to_N x)%N.
Proof.
  intros Hin%default_pairs_of_lookup Hx.
  assert (Hall : Forall (fun kv : N * bytes =>
                           Forall (fun y => y = x09 ∨ (32 ≤ Byte.to_N y)%N) kv.2)
                        (custom_characters ++ ascii_pairs)) by compute_done.
  rewrite Forall_forall in Hall. specialize (Hall _ Hin). cbn in Hall.
  rewrite Forall_forall in Hall. by apply Hall.
Qed.

(** Two characters with the same entry in the default table are the
    same character. *)
Lemma charset_translations_injective c1 c2 bs :
  charset_translations !! c1 = Some bs → charset_translations !! c2 = Some bs →
  c1 = c2.
Proof.
  intros H1%default_pairs_of_lookup H2%default_pairs_of_lookup.
  assert (Hnd : NoDup ((fun kv : N * bytes => Byte.to_N <$> kv.2)
                         <$> custom_characters ++ ascii_pairs)) by compute_done.
  apply list_elem_of_lookup in H1 as [i Hi]. apply list_elem_of_lookup in H2 as [j Hj].
  assert (i = j) as ->.
  { apply (NoDup_lookup _ i j (Byte.to_N <$> bs) Hnd);
      apply list_lookup_fmap_Some; by eexists (_, bs). }
  congruence.
Qed.

Lemma elem_of_bytes_join (sep : bytes) (parts : list bytes) (x : byte) :
  x ∈ bytes_join sep parts → x ∈ sep ∨ ∃ p, p ∈ parts ∧ x ∈ p.
Proof.
  induction parts as [|p parts IH]; [by intros ?%elem_of_nil|].
  destruct parts as [|q parts].
  - cbn. intros Hx. right. exists p. split; [by left|done].
  - change (bytes_join sep (p :: q :: parts))
      with (p ++ sep ++ bytes_join sep (q :: parts)).
    rewrite !elem_of_app. intros [Hx|[Hx|Hx]].
    + right. exists p. split; [by left|done].
    + by left.
    + destruct (IH Hx) as [?|(p' & Hp' & ?)]; [by left|].
      right. exists p'. split; [by right|done].
Qed.

Lemma encoded_cons (cs : charset_t) (c : pychar) (s : pystr) :
  mjoin (omap (fun x => cs !! x) (c :: s))
  = default [] (cs !! c) ++ mjoin (omap (fun x => cs !! x) s).
Proof.
  change (omap (fun x => cs !! x) (c :: s))
    with (match cs !! c with
          | Some bs => bs :: omap (fun x => cs !! x) s
          | None => omap (fun x => cs !! x) s
          end).
  by destruct (cs !! c).
Qed.

(** A table whose entries are single bytes, no two of them equal, encodes
    texts of its own characters injectively. *)
Lemma encoded_injective (cs : charset_t) :
  (∀ c bs, cs !! c = Some bs → List.length bs = 1%nat) →
  (∀ c1 c2 bs, cs !! c1 = Some bs → cs !! c2 = Some bs → c1 = c2) →
  ∀ s1 s2 : pystr,
    Forall (fun c => is_Some (cs !! c)) s1 →
    Forall (fun c => is_Some (cs !! c)) s2 →
    mjoin (omap (fun x => cs !! x) s1) = mjoin (omap (fun x => cs !! x) s2) →
    s1 = s2.
Proof.
  intros Hlen Hinj s1 s2 H1. revert s2.
  induction H1 as [|c1 s1 [bs1 Hc1] H1 IH]; intros s2 H2.
  - destruct H2 as [|c2 s2 [bs2 Hc2] H2]; [done|].
    rewrite encoded_cons, Hc2. pose proof (Hlen _ _ Hc2).
    destruct bs2; [done|]. discriminate.
  - destruct H2 as [|c2 s2 [bs2 Hc2] H2].
    + rewrite encoded_cons, Hc1. pose proof (Hlen _ _ Hc1).
      destruct bs1; [done|]. discriminate.
    + rewrite !encoded_cons, Hc1, Hc2.
      pose proof (Hlen _ _ Hc1). pose proof (Hlen _ _ Hc2).
      destruct bs1 as [|b1 [|? ?]]; try done. destruct bs2 as [|b2 [|? ?]]; try done.
      cbn. intros [= -> Hrest]. f_equal.
      * by eapply Hinj.
      * by apply IH.
Qed.

(** A table whose entries are single bytes yields one byte for each
    character that has an entry. *)
Lemma encoded_length (cs : charset_t) (s : pystr) :
  (∀ c bs, cs !! c = Some bs → List.length bs = 1%nat) →
  List.length (mjoin (omap (fun x => cs !! x) s))
  = List.length (filter (fun c => is_Some (cs !! c)) s).
Proof.
  intros Hlen. induction s as [|c s IH]; [done|].
  rewrite encoded_cons, filter_cons.
  destruct (cs !! c) as [bs|] eqn:Hc.
  - rewrite decide_True by done. change (default [] (Some bs)) with bs.
    rewrite length_app, (Hlen _ _ Hc), IH. done.
  - rewrite decide_False by (by intros [? ?]). done.
Qed.

Lemma filter_length_all {A} (P : A → Prop) `{!∀ x, Decision (P x)} (l : list A) :
  Forall P l ↔ List.length (filter P l) = List.length l.
Proof.
  induction l as [|x l IH]; [done|]. rewrite filter_cons, Forall_cons.
  pose proof (length_filter P l). destruct (decide (P x)); cbn [List.length].
  - rewrite IH. split; [intros [_ ->]; done|]. intros [= ?]. done.
  - split; [tauto|]. lia.
Qed.

(** The encoder logs nothing exactly when every character of the
    normalised text has an entry. *)
Lemma normalize_and_encode_silent (nfkc : pystr → pystr) (cs : charset_t)
    (value : pystr) (field_name : option string) :
  (normalize_and_encode nfkc cs value field_name).2 = []
  ↔ Forall (fun c => is_Some (cs !! c)) (nfkc value).
Proof.
  unfold normalize_and_encode. cbn [snd]. set (s := nfkc value).
  rewrite Forall_forall. case_bool_decide as Hempty.
  - split; [|done]. intros _ c Hc.
    destruct (cs !! c) eqn:E; [by eexists|].
    exfalso. apply (not_elem_of_empty (C := gset N) c).
    rewrite <- Hempty, elem_of_difference, elem_of_list_to_set, not_elem_of_dom. done.
  - split; [done|]. intros H. exfalso. apply Hempty.
    apply set_eq. intros c.
    rewrite elem_of_difference, elem_of_list_to_set, not_elem_of_dom.
    split; [|by intros ?%elem_of_empty]. intros [Hc Hn].
    destruct (H c Hc) as [? ?]. congruence.
Qed.

Section DefaultTable.
Variable nfkc : pystr → pystr.

(** X15: every byte of the output of a row that uses the default table
    is a byte of the separator, the tabulator, or a byte from 0x20 up:
    with a separator free of them, the output holds neither a line feed
    nor a carriage return, whatever the values. *)
Theorem default_charset_no_control_bytes w cls kwargs output :
  charset cls = charset_translations →
  (RowBase_output nfkc w cls (RowBase_init cls kwargs)).1 = Ok output →
  (∀ x, x ∈ output → x ∈ separator cls ∨ x = x09 ∨ (32 ≤ Byte.to_N x)%N)
  ∧ (x0a ∉ separator cls → x0d ∉ separator cls → (x0a ∉ output) ∧ (x0d ∉ output)).
Proof.
  intros Hcs Hout.
  assert (Hbytes : ∀ x, x ∈ output →
            x ∈ separator cls ∨ x = x09 ∨ (32 ≤ Byte.to_N x)%N).
  { revert Hout. unfold RowBase_output.
    change (fields (RowBase_init cls kwargs)) with (base_fields cls).
    destruct (encoded_fields nfkc (heap w) (charset cls) _ (base_fields cls))
      as [[parts|] logged] eqn:E; [|discriminate].
    cbn. intros [= <-] x.
    pose proof (encoded_fields_parts nfkc _ _ _ _ parts (f_equal fst E)) as [_ Hall].
    rewrite elem_of_app. intros [Hx|Hx]; [|by left].
    apply elem_of_bytes_join in Hx as [Hx|(p & Hp & Hx)]; [by left|]. right.
    rewrite Forall_forall in Hall. destruct (Hall p Hp) as (text & fn & ->).
    rewrite normalize_and_encode_bytes in Hx.
    apply elem_of_encoded in Hx as (c & bs & Hc & Hx).
    rewrite Hcs in Hc.
    exact (charset_translations_no_control c bs x Hc Hx). }
  split; [exact Hbytes|]. intros Hlf Hcr.
  split; intros Hx; destruct (Hbytes _ Hx) as [?|[?|H]]; try done; cbn in H; lia.
Qed.


(** X16: with the default table the encoder loses no information on
    texts made of characters of the table: two such texts with the same
    bytes are the same text (the normalisation leaving such texts
    alone). *)
Theorem default_encoding_injective text1 text2 field_name1 field_name2 :
  NFKC_inert nfkc →
  Forall (fun c => is_Some (charset_translations !! c)) text1 →
  Forall (fun c => is_Some (charset_translations !! c)) text2 →
  (normalize_and_encode nfkc charset_translations text1 field_name1).1
  = (normalize_and_encode nfkc charset_translations text2 field_name2).1 →
  text1 = text2.
Proof.
  intros Hinert H1 H2. rewrite !normalize_and_encode_bytes.
  rewrite (Hinert text1), (Hinert text2);
    try (eapply Forall_impl; [eassumption|]; intros c Hc; by right).
  apply encoded_injective; try done.
  - intros c bs Hc. by apply charset_translations_entry in Hc as [? _].
  - apply charset_translations_injective.
Qed.

(** X17: with the default table the encoder yields one byte for each
    character of the normalised text that has an entry and none for the
    others: it never yields more bytes than the normalised text has
    characters, and it logs nothing if and only if it yields exactly as
    many. *)
Theorem default_encoding_length value field_name :
  let r := normalize_and_encode nfkc charset_translations value field_name in
  List.length r.1
  = List.length (filter (fun c => is_Some (charset_translations !! c)) (nfkc value))
  ∧ (List.length r.1 ≤ List.length (nfkc value))%nat
  ∧ (r.2 = [] ↔ List.length r.1 = List.length (nfkc value)).
Proof.
  cbv zeta. rewrite normalize_and_encode_silent, normalize_and_encode_bytes.
  rewrite encoded_length
    by (intros c bs Hc; by apply charset_translations_entry in Hc as [? _]).
  split; [done|]. split; [apply length_filter|]. apply filter_length_all.
Qed.

End DefaultTable.


Lemma default_charset_no_control_bytes_witness :
  ∃ output,
    charset (VorlaufZeile rows) = charset_translations
    ∧ (RowBase_output (fun s => s) W (VorlaufZeile rows)
         (RowBase_init (VorlaufZeile rows) example_header)).1 = Ok output
    ∧ (∀ x, x ∈ output →
         x ∈ separator (VorlaufZeile rows) ∨ x = x09 ∨ (32 ≤ Byte.to_N x)%N)
    ∧ (x0a ∉ separator (VorlaufZeile rows) → x0d ∉ separator (VorlaufZeile rows) →
       (x0a ∉ output) ∧ (x0d ∉ output)).
Proof.
  eexists. split; [reflexivity|]. split; [vm_compute; reflexivity|].
  apply (default_charset_no_control_bytes (fun s => s) W (VorlaufZeile rows)
           example_header); [reflexivity|vm_compute; reflexivity].
Defined.

Lemma default_encoding_injective_witness :
  NFKC_inert (fun s => s)
  ∧ Forall (fun c => is_Some (charset_translations !! c)) [65; 223]%N
  ∧ (normalize_and_encode (fun s => s) charset_translations [65; 223]%N None).1
    = (normalize_and_encode (fun s => s) charset_translations [65; 223]%N
         (Some "kurztext1")).1
  ∧ [65; 223]%N = [65; 223]%N.
Proof.
  assert (H : Forall (fun c => is_Some (charset_translations !! c)) [65; 223]%N)
    by compute_done.
  split; [exact identity_inert|]. split; [exact H|]. split; [reflexivity|].
  exact (default_encoding_injective (fun s => s) [65; 223]%N [65; 223]%N None
           (Some "kurztext1") identity_inert H H eq_refl).
Defined.

(** ** More on the text chunker *)

Lemma nonspace_app s t : nonspace (s ++ t) = nonspace s ++ nonspace t.
Proof. apply filter_app. Qed.

Lemma nonspace_spaces ws : Forall (fun c => is_space c = true) ws → nonspace ws = [].
Proof.
  induction 1 as [|c ws Hc _ IH]; [done|].
  unfold nonspace. rewrite filter_cons, decide_False by congruence. exact IH.
Qed.

Lemma nonspace_nil_spaces s : nonspace s = [] → Forall (fun c => is_space c = true) s.
Proof.
  induction s as [|c s IH]; [done|]. unfold nonspace. rewrite filter_cons.
  destruct (decide (is_space c = false)) as [|Hc]; [done|].
  intros H. constructor; [by destruct (is_space c)|by apply IH].
Qed.

Lemma lstrip_spaces s :
  ∃ ws, s = ws ++ lstrip s ∧ Forall (fun c => is_space c = true) ws.
Proof.
  induction s as [|c s (ws & IH & Hws)]; [by exists []|].
  cbn [lstrip]. destruct (is_space c) eqn:Hc.
  - exists (c :: ws). split; [cbn; by f_equal|by constructor].
  - by exists [].
Qed.

Lemma rstrip_spaces s :
  ∃ ws, s = rstrip s ++ ws ∧ Forall (fun c => is_space c = true) ws.
Proof.
  unfold rstrip. destruct (lstrip_spaces (reverse s)) as (ws & Hs & Hws).
  exists (reverse ws). split.
  - rewrite <- reverse_app, <- Hs. by rewrite reverse_involutive.
  - by apply Forall_reverse.
Qed.

(** [strip] removes whitespace only. *)
Lemma nonspace_strip s : nonspace (strip s) = nonspace s.
Proof.
  unfold strip.
  destruct (lstrip_spaces s) as (ws2 & H2 & Hws2).
  destruct (rstrip_spaces (lstrip s)) as (ws1 & H1 & Hws1).
  apply (f_equal nonspace) in H1, H2.
  rewrite nonspace_app, (nonspace_spaces ws1), app_nil_r in H1 by done.
  rewrite nonspace_app, (nonspace_spaces ws2) in H2 by done.
  by rewrite H2, H1.
Qed.

Lemma lstrip_fixed s : no_leading_space s → lstrip s = s.
Proof.
  destruct s as [|c s]; [done|]. intros H. cbn [lstrip].
  by rewrite (H c s eq_refl).
Qed.

Lemma strip_idemp s : strip (strip s) = strip s.
Proof.
  assert (Hl : ∀ t, lstrip (lstrip t) = lstrip t).
  { intros t. apply lstrip_fixed. intros c rest. apply lstrip_head. }
  unfold strip at 1. rewrite lstrip_fixed by (intros c rest; apply strip_head).
  unfold strip, rstrip. by rewrite reverse_involutive, Hl.
Qed.

Lemma strip_spaces s : Forall (fun c => is_space c = true) s → strip s = [].
Proof.
  intros H. unfold strip. assert (lstrip s = []) as ->; [|done].
  induction H as [|c s Hc _ IH]; [done|]. cbn [lstrip]. by rewrite Hc.
Qed.

Lemma slice_to_from s k : slice_to s k ++ slice_from s k = s.
Proof. apply take_drop. Qed.

Lemma slice_to_head s k : no_leading_space s → no_leading_space (slice_to s k).
Proof.
  intros H c rest. unfold slice_to. destruct s as [|c0 s].
  - by rewrite take_nil.
  - destruct (slice_index _ k); [done|]. cbn [take]. intros [= -> _].
    by apply (H c s).
Qed.

Lemma mjoin_snoc {A} (l : list (list A)) (x : list A) : mjoin (l ++ [x]) = mjoin l ++ x.
Proof. rewrite join_app. cbn. by rewrite app_nil_r. Qed.

(** The chunks appended for a line hold the characters of the line that
    are not whitespace, up to what the loop has not read yet. *)
Lemma chunk_line_content fuel chunk_size split_char line chunks :
  ∃ rest,
    nonspace (mjoin (chunk_line fuel chunk_size split_char line chunks).1) ++ rest
    = nonspace (mjoin chunks) ++ nonspace line
    ∧ ((chunk_line fuel chunk_size split_char line chunks).2 = true → rest = []).
Proof.
  revert line chunks. induction fuel as [|fuel IH]; intros line chunks.
  - exists (nonspace line). by split.
  - cbn [chunk_line]. destruct (chunk_size <? len (strip line)).
    + destruct (IH (slice_from (strip line)
                      (if rfind (slice_to (strip line) chunk_size) split_char =? -1
                       then chunk_size
                       else rfind (slice_to (strip line) chunk_size) split_char))
                   (chunks ++ [slice_to (strip line)
                      (if rfind (slice_to (strip line) chunk_size) split_char =? -1
                       then chunk_size
                       else rfind (slice_to (strip line) chunk_size) split_char)]))
        as (rest & Hrest & Hfin).
      exists rest. split; [|exact Hfin]. rewrite Hrest.
      rewrite mjoin_snoc, nonspace_app, <- app_assoc, <- nonspace_app, slice_to_from.
      by rewrite nonspace_strip.
    + exists []. split; [|done]. cbn [fst].
      by rewrite mjoin_snoc, nonspace_app, nonspace_strip, app_nil_r.
Qed.

Lemma chunk_lines_content fuel chunk_size split_char lines chunks :
  ∃ rest,
    nonspace (mjoin (chunk_lines fuel chunk_size split_char lines chunks).1) ++ rest
    = nonspace (mjoin chunks) ++ nonspace (mjoin lines)
    ∧ ((chunk_lines fuel chunk_size split_char lines chunks).2 = true → rest = []).
Proof.
  revert chunks. induction lines as [|line lines IH]; intros chunks.
  - exists []. by split.
  - cbn [chunk_lines].
    destruct (chunk_line_content fuel chunk_size split_char line chunks)
      as (rest1 & H1 & Hfin1).
    destruct (chunk_line fuel chunk_size split_char line chunks)
      as [chunks' finished]. cbn [fst snd] in H1, Hfin1.
    rewrite mjoin_cons, nonspace_app, app_assoc, <- H1.
    destruct finished.
    + rewrite (Hfin1 eq_refl), app_nil_r.
      destruct (IH chunks') as (rest & Hrest & Hfin). by exists rest.
    + exists (rest1 ++ nonspace (mjoin lines)). cbn [fst snd].
      split; [by rewrite app_assoc|done].
Qed.

Lemma is_linebreak_space c : is_linebreak c = true → is_space c = true.
Proof.
  unfold is_linebreak, is_space.
  rewrite !orb_true_iff, !andb_true_iff, !N.leb_le, !N.eqb_eq. lia.
Qed.

Lemma nonspace_cons_space c s : is_space c = true → nonspace (c :: s) = nonspace s.
Proof. intros Hc. unfold nonspace. by rewrite filter_cons, decide_False by congruence. Qed.

(** [splitlines] removes line boundaries only, and they are whitespace. *)
Lemma splitlines_from_content n cur s :
  (List.length s ≤ n)%nat →
  nonspace (mjoin (splitlines_from cur s)) = nonspace (reverse cur ++ s).
Proof.
  revert cur s. induction n as [|n IH]; intros cur s Hn.
  - destruct s; [|cbn in Hn; lia]. cbn [splitlines_from].
    destruct cur; [done|]. by rewrite mjoin_cons.
  - destruct s as [|c rest].
    { cbn [splitlines_from]. destruct cur; [done|]. by rewrite mjoin_cons. }
    cbn [List.length] in Hn. cbn [splitlines_from].
    destruct (is_linebreak c) eqn:Hc.
    + apply is_linebreak_space in Hc.
      rewrite mjoin_cons, !nonspace_app, (nonspace_cons_space c) by done. f_equal.
      destruct rest as [|c' rest']; [done|].
      destruct ((c =? 13)%N && (c' =? 10)%N) eqn:Hcrlf.
      * apply andb_true_iff in Hcrlf as [_ Hc'%N.eqb_eq]. subst c'.
        rewrite (nonspace_cons_space 10%N) by done.
        rewrite (IH [] rest') by (cbn in Hn; lia). done.
      * rewrite (IH [] (c' :: rest')) by lia. done.
    + rewrite (IH (c :: cur) rest) by lia.
      by rewrite reverse_cons, <- app_assoc.
Qed.

Lemma splitlines_content s : nonspace (mjoin (splitlines s)) = nonspace s.
Proof. unfold splitlines. by rewrite (splitlines_from_content (List.length s)). Qed.

Lemma splitlines_from_nonempty cur s : cur ≠ [] → splitlines_from cur s ≠ [].
Proof.
  revert cur. induction s as [|c rest IH]; intros cur Hcur.
  - cbn. by destruct cur.
  - cbn [splitlines_from]. destruct (is_linebreak c); [done|]. by apply IH.
Qed.

Lemma splitlines_nonempty s : s ≠ [] → splitlines s ≠ [].
Proof.
  destruct s as [|c rest]; [done|]. intros _. unfold splitlines.
  cbn [splitlines_from]. destruct (is_linebreak c); [done|].
  by apply splitlines_from_nonempty.
Qed.

(** An iteration that cuts at position 0 leaves the line as it was: the
    loop never reaches its [break]. *)
Lemma chunk_line_stuck fuel chunk_size split_char line chunks :
  chunk_size < len (strip line) →
  cut_position chunk_size split_char (strip line) = 0 →
  (chunk_line fuel chunk_size split_char line chunks).2 = false.
Proof.
  unfold cut_position. revert line chunks.
  induction fuel as [|fuel IH]; intros line chunks Hlong Hcut; [done|].
  cbn [chunk_line]. apply Z.ltb_lt in Hlong as Hlong'. rewrite Hlong'.
  cbv zeta in Hcut. rewrite Hcut.
  change (slice_from (strip line) 0) with (strip line).
  apply IH; by rewrite strip_idemp.
Qed.

Lemma chunk_line_negative fuel chunk_size split_char line chunks :
  chunk_size < 0 →
  (chunk_line fuel chunk_size split_char line chunks).2 = false.
Proof.
  intros Hk. revert line chunks.
  induction fuel as [|fuel IH]; intros line chunks; [done|].
  cbn [chunk_line].
  assert ((chunk_size <? len (strip line)) = true) as ->; [|apply IH].
  apply Z.ltb_lt. unfold len. lia.
Qed.

(** A line whose loop never ends keeps [chunk_text] from returning. *)
Lemma chunk_lines_stuck fuel chunk_size split_char lines line chunks :
  line ∈ lines →
  (∀ chunks, (chunk_line fuel chunk_size split_char line chunks).2 = false) →
  (chunk_lines fuel chunk_size split_char lines chunks).2 = false.
Proof.
  intros Hin Hstuck. revert chunks.
  induction lines as [|l lines IH]; intros chunks; [by apply elem_of_nil in Hin|].
  cbn [chunk_lines]. apply elem_of_cons in Hin as [<-|Hin].
  - specialize (Hstuck chunks).
    destruct (chunk_line fuel chunk_size split_char line chunks) as [chunks' fin].
    cbn [snd] in Hstuck. by rewrite Hstuck.
  - destruct (chunk_line fuel chunk_size split_char l chunks) as [chunks' [|]];
      [by apply IH|done].
Qed.

Lemma chunk_lines_short fuel chunk_size split_char lines chunks :
  Forall (fun line => len (strip line) ≤ chunk_size) lines →
  chunk_lines (S fuel) chunk_size split_char lines chunks
  = (chunks ++ (strip <$> lines), true).
Proof.
  intros H. revert chunks. induction H as [|line lines Hline _ IH]; intros chunks.
  - cbn. by rewrite app_nil_r.
  - cbn [chunk_lines chunk_line].
    assert ((chunk_size <? len (strip line)) = false) as -> by by apply Z.ltb_ge.
    rewrite IH, <- app_assoc. done.
Qed.

Lemma chunk_line_heads fuel chunk_size split_char line chunks :
  Forall no_leading_space chunks →
  Forall no_leading_space (chunk_line fuel chunk_size split_char line chunks).1.
Proof.
  revert line chunks. induction fuel as [|fuel IH]; intros line chunks Hchunks; [done|].
  assert (Hs : no_leading_space (strip line)) by (intros c rest; apply strip_head).
  cbn [chunk_line]. destruct (chunk_size <? len (strip line)).
  - apply IH. apply Forall_app. split; [done|].
    constructor; [|done]. by apply slice_to_head.
  - cbn [fst]. apply Forall_app. split; [done|]. by constructor.
Qed.

Lemma chunk_lines_heads fuel chunk_size split_char lines chunks :
  Forall no_leading_space chunks →
  Forall no_leading_space (chunk_lines fuel chunk_size split_char lines chunks).1.
Proof.
  revert chunks. induction lines as [|line lines IH]; intros chunks Hchunks; [done|].
  cbn [chunk_lines].
  pose proof (chunk_line_heads fuel chunk_size split_char line chunks Hchunks) as H.
  destruct (chunk_line fuel chunk_size split_char line chunks) as [chunks' [|]].
  - by apply IH.
  - exact H.
Qed.

Lemma nonspace_mjoin_nil lines :
  nonspace (mjoin lines) = [] → Forall (fun line => strip line = []) lines.
Proof.
  induction lines as [|line lines IH]; [done|].
  rewrite mjoin_cons, nonspace_app. intros [H1 H2]%app_eq_nil.
  constructor; [|by apply IH]. by apply strip_spaces, nonspace_nil_spaces.
Qed.

Lemma nonspace_mjoin_cons lines c rest :
  nonspace (mjoin lines) = c :: rest → ∃ line, line ∈ lines ∧ strip line ≠ [].
Proof.
  induction lines as [|line lines IH]; [done|].
  rewrite mjoin_cons, nonspace_app.
  destruct (nonspace line) as [|c0 rest0] eqn:Hline.
  - intros H. destruct (IH H) as (l & Hl & Hs). exists l. split; [by right|done].
  - intros _. exists line. split; [by left|].
    intros Hs. rewrite <- nonspace_strip, Hs in Hline. done.
Qed.

Section ChunkerContent.
Variable nfkc : pystr → pystr.

(** X18: the chunker removes whitespace only: the characters of the
    chunks emitted after any number of iterations that are not
    whitespace are the first such characters of the normalised text, in
    order, and those of a returned list are all of them, whatever the
    width and the separator. *)
Theorem chunk_text_keeps_content text chunk_size split_char :
  (∀ fuel,
     nonspace (mjoin (chunk_text_run nfkc fuel text chunk_size split_char).1)
     `prefix_of` nonspace (nfkc text))
  ∧ (∀ fuel chunks,
       chunk_text nfkc fuel text chunk_size split_char = Some chunks →
       nonspace (mjoin chunks) = nonspace (nfkc text)).
Proof.
  assert (H : ∀ fuel, ∃ rest,
            nonspace (mjoin (chunk_text_run nfkc fuel text chunk_size split_char).1)
              ++ rest = nonspace (nfkc text)
            ∧ ((chunk_text_run nfkc fuel text chunk_size split_char).2 = true →
               rest = [])).
  { intros fuel. unfold chunk_text_run.
    destruct (chunk_lines_content fuel chunk_size split_char
                (splitlines (nfkc text)) []) as (rest & Hrest & Hfin).
    exists rest. split; [|exact Hfin]. by rewrite Hrest, splitlines_content. }
  split.
  - intros fuel. destruct (H fuel) as (rest & Hrest & _). by exists rest.
  - intros fuel chunks. unfold chunk_text. destruct (H fuel) as (rest & Hrest & Hfin).
    destruct (chunk_text_run nfkc fuel text chunk_size split_char)
      as [chunks' [|]]; [|discriminate].
    intros [= <-]. cbn [fst snd] in Hrest, Hfin.
    by rewrite <- Hrest, (Hfin eq_refl), app_nil_r.
Qed.

(** X19: when a line of the text, stripped, is longer than the width
    and the cut position computed on it is 0 (the separator found at
    position 0 only, or a width of 0), [chunk_text] never returns: no
    number of iterations is enough. *)
Theorem chunk_text_cut_at_zero_never_returns text chunk_size split_char line :
  line ∈ splitlines (nfkc text) →
  chunk_size < len (strip line) →
  cut_position chunk_size split_char (strip line) = 0 →
  ∀ fuel, chunk_text nfkc fuel text chunk_size split_char = None.
Proof.
  intros Hin Hlong Hcut fuel. unfold chunk_text, chunk_text_run.
  pose proof (chunk_lines_stuck fuel chunk_size split_char (splitlines (nfkc text))
                line [] Hin) as H.
  destruct (chunk_lines fuel chunk_size split_char (splitlines (nfkc text)) [])
    as [chunks fin]. cbn [snd] in H. rewrite H; [done|].
  intros chunks'. by apply chunk_line_stuck.
Qed.

(** X20: [chunk_text] needs a width of at least 1.  With a negative
    width it never returns unless the normalised text is empty; with
    width 0 it returns exactly when the normalised text is made of
    whitespace only. *)
Theorem chunk_text_needs_positive_width text chunk_size split_char :
  (chunk_size < 0 → nfkc text ≠ [] →
   ∀ fuel, chunk_text nfkc fuel text chunk_size split_char = None)
  ∧ (chunk_size = 0 →
     ((∃ fuel chunks, chunk_text nfkc fuel text chunk_size split_char = Some chunks)
      ↔ Forall (fun c => is_space c = true) (nfkc text))).
Proof.
  split.
  - intros Hneg Htext fuel. unfold chunk_text, chunk_text_run.
    pose proof (splitlines_nonempty (nfkc text) Htext) as Hlines.
    destruct (splitlines (nfkc text)) as [|line lines]; [done|].
    cbn [chunk_lines].
    pose proof (chunk_line_negative fuel chunk_size split_char line [] Hneg) as H.
    destruct (chunk_line fuel chunk_size split_char line []) as [chunks fin].
    cbn [snd] in H. by rewrite H.
  - intros ->. split.
    + intros (fuel & chunks & Hret).
      apply nonspace_nil_spaces.
      destruct (nonspace (nfkc text)) as [|c rest] eqn:Hns; [done|]. exfalso.
      rewrite <- splitlines_content in Hns.
      apply nonspace_mjoin_cons in Hns as (line & Hin & Hs).
      assert (Hnone : chunk_text nfkc fuel text 0 split_char = None); [|congruence].
      unfold chunk_text, chunk_text_run.
      pose proof (chunk_lines_stuck fuel 0 split_char (splitlines (nfkc text))
                    line [] Hin) as H.
      destruct (chunk_lines fuel 0 split_char (splitlines (nfkc text)) [])
        as [chunks' fin]. cbn [snd] in H. rewrite H; [done|].
      intros chunks''. apply chunk_line_stuck.
      * unfold len. destruct (strip line); [done|]. cbn [List.length]. lia.
      * unfold cut_position, slice_to. cbn [slice_index Z.ltb Z.compare Z.to_nat].
        rewrite take_0. unfold rfind. cbn [rfind_from].
        by case_bool_decide.
    + intros Hspaces. exists 1%nat, (strip <$> splitlines (nfkc text)).
      unfold chunk_text, chunk_text_run. rewrite chunk_lines_short; [done|].
      apply nonspace_spaces in Hspaces. rewrite <- splitlines_content in Hspaces.
      apply nonspace_mjoin_nil in Hspaces.
      eapply Forall_impl; [exact Hspaces|]. intros line ->. done.
Qed.

(** X21: a text whose lines, stripped, all fit the width is returned
    line by line, each line stripped, after one iteration a line; a
    line of whitespace gives an empty chunk. *)
Theorem chunk_text_short_lines text chunk_size split_char :
  Forall (fun line => len (strip line) ≤ chunk_size) (splitlines (nfkc text)) →
  ∀ fuel, chunk_text nfkc (S fuel) text chunk_size split_char
          = Some (strip <$> splitlines (nfkc text)).
Proof.
  intros H fuel. unfold chunk_text, chunk_text_run.
  by rewrite chunk_lines_short.
Qed.

(** X22: no chunk the chunker emits begins with whitespace, after any
    number of iterations and whatever the width and the separator. *)
Theorem chunk_text_no_leading_space text chunk_size split_char fuel :
  Forall no_leading_space (chunk_text_run nfkc fuel text chunk_size split_char).1.
Proof. unfold chunk_text_run. by apply chunk_lines_heads. Qed.

End ChunkerContent.

Example chunk_text_keeps_content_ex :
  chunk_text (fun s => s) 10 (u "ABC DEF GHI JKL MNO QRS") 5 (u " ")
  = Some [u "ABC"; u "DEF"; u "GHI"; u "JKL"; u "MNO"; u "QRS"]
  ∧ nonspace (u "ABC DEF GHI JKL MNO QRS") = u "ABCDEFGHIJKLMNOQRS".
Proof. split; reflexivity. Qed.

Lemma chunk_text_cut_at_zero_never_returns_witness :
  u " -ABCDEF " ∈ splitlines (u "x" ++ [10%N] ++ u " -ABCDEF ")
  ∧ 3 < len (strip (u " -ABCDEF "))
  ∧ cut_position 3 (u "-") (strip (u " -ABCDEF ")) = 0
  ∧ ∀ fuel, chunk_text (fun s => s) fuel (u "x" ++ [10%N] ++ u " -ABCDEF ") 3 (u "-")
            = None.
Proof.
  assert (H1 : u " -ABCDEF " ∈ splitlines (u "x" ++ [10%N] ++ u " -ABCDEF "))
    by (right; left).
  split; [exact H1|]. split; [reflexivity|]. split; [reflexivity|].
  apply (chunk_text_cut_at_zero_never_returns (fun s => s) _ 3 (u "-") _ H1);
    reflexivity.
Defined.

Example chunk_text_width_0 :
  chunk_text (fun s => s) 5 (u " " ++ [10%N] ++ [9%N]) 0 (u " ") = Some [[]; []]
  ∧ chunk_text (fun s => s) 5 [] (-1) (u " ") = Some [].
Proof. split; reflexivity. Qed.

Lemma chunk_text_short_lines_witness :
  Forall (fun line => len (strip line) ≤ 5)
    (splitlines (u " AB  " ++ [10%N; 10%N] ++ u "C D E"))
  ∧ chunk_text (fun s => s) 1 (u " AB  " ++ [10%N; 10%N] ++ u "C D E") 5 (u " ")
    = Some [u "AB"; []; u "C D E"].
Proof.
  assert (H : Forall (fun line => len (strip line) ≤ 5)
                (splitlines (u " AB  " ++ [10%N; 10%N] ++ u "C D E")))
    by (repeat constructor; vm_compute; discriminate).
  split; [exact H|].
  exact (chunk_text_short_lines (fun s => s) _ 5 (u " ") H 0%nat).
Defined.
